(** * Grid packing of inventory slots (InventoryGrid.tsx)

    A shallow embedding of [packItems] and of the empty-cell resolver of the
    inventory grid component, followed by the properties of the layout that
    the specification states.

    Numbers are modelled as integers ([Z]).  The occupancy matrix
    [occupied : boolean[][]] is a list of rows; a row is a JavaScript array
    used through [a[c]] and [a[c] = true] only, so it is modelled as a finite
    map from integer keys to booleans: reading a missing key gives
    [undefined] (falsy), writing any key stores it.  The engine's limit on
    array lengths and on memory is not modelled. *)

From stdpp Require Import gmap strings list.
From Stdlib Require Import ZArith Lia.

Local Open Scope Z_scope.

(** ** Data *)

(** The fields of a [Slot] that the grid reads: [slot.slot], [slot.name],
    and the optional server-assigned [gridX] / [gridY]. *)
Record Slot := mkSlot {
  slot : Z;
  name : option string;
  gridX : option Z;
  gridY : option Z
}.

(** [getItemWidth] and [getItemHeight] are imported from [./InventorySlot];
    the packer only relies on their results, so they are an interface. *)
Class ItemFootprint := {
  getItemWidth : Slot -> Z;
  getItemHeight : Slot -> Z
}.

(** [interface Placement { slot; col; row; w; h }] *)
Record Placement := mkPlacement {
  pl_slot : Z;
  pl_col : Z;
  pl_row : Z;
  pl_w : Z;
  pl_h : Z
}.

(** The value returned by [packItems]. *)
Record PackResult := mkPackResult {
  placements : list Placement;
  rows : Z
}.

(** [occupied: boolean[][]] *)
Abbreviation Grid := (list (gmap Z bool)).

(** ** Outcomes and the state monad of the closure over [occupied] *)

Inductive jsError := TypeError | RangeError.

(** A run returns, throws, or is cut off by the bound put on the unbounded
    loop of [findFree]. *)
Inductive outcome (A : Type) : Type :=
| Returns (a : A)
| Throws (e : jsError)
| OutOfFuel.
Arguments Returns {A} a.
Arguments Throws {A} e.
Arguments OutOfFuel {A}.

Definition M (A : Type) : Type := Grid -> outcome (A * Grid).

#[global] Instance M_ret : MRet M := fun A a occ => Returns (a, occ).
#[global] Instance M_bind : MBind M := fun A B f m occ =>
  match m occ with
  | Returns (a, occ') => f a occ'
  | Throws e => Throws e
  | OutOfFuel => OutOfFuel
  end.

Definition outOfFuel {A} : M A := fun _ => OutOfFuel.

(** [for (let i = lo; i < hi; i++) body(i)] *)
Fixpoint forUpto (n : nat) (i : Z) (body : Z -> M unit) : M unit :=
  match n with
  | O => mret tt
  | S k => body i ≫= fun _ => forUpto k (i + 1) body
  end.

Definition forRange (lo hi : Z) (body : Z -> M unit) : M unit :=
  forUpto (Z.to_nat (hi - lo)) lo body.

(** The same loop when the body may leave it early ([break outer], [return]):
    the body answers [Some a] to leave with [a], [None] to go on. *)
Fixpoint findUpto {A} (n : nat) (i : Z) (body : Z -> M (option A)) : M (option A) :=
  match n with
  | O => mret None
  | S k => body i ≫= fun o =>
      match o with
      | Some a => mret (Some a)
      | None => findUpto k (i + 1) body
      end
  end.

Definition findRange {A} (lo hi : Z) (body : Z -> M (option A)) : M (option A) :=
  findUpto (Z.to_nat (hi - lo)) lo body.

(** ** The occupancy matrix *)

(** [new Array(cols).fill(false)]: keys [0 .. cols-1], all [false]; a negative
    length is a [RangeError]. *)
Definition filledFalse (cols : Z) : gmap Z bool :=
  list_to_map ((fun c => (c, false)) <$> seqZ 0 cols).

Definition newArrayFill (cols : Z) : outcome (gmap Z bool) :=
  if cols <? 0 then Throws RangeError else Returns (filledFalse cols).

(** [occupied[r]]: [undefined] outside [0 .. length-1]. *)
Definition lookupRow (occ : Grid) (r : Z) : option (gmap Z bool) :=
  if r <? 0 then None else occ !! Z.to_nat r.

(** [occupied[r][c]] read for its truthiness; a [TypeError] when
    [occupied[r]] is [undefined]. *)
Definition getCell (r c : Z) : M bool := fun occ =>
  match lookupRow occ r with
  | None => Throws TypeError
  | Some cells => Returns (default false (cells !! c), occ)
  end.

(** [occupied[r][c] = true] *)
Definition setCell (r c : Z) : M unit := fun occ =>
  match lookupRow occ r with
  | None => Throws TypeError
  | Some cells => Returns (tt, <[Z.to_nat r := <[c := true]> cells]> occ)
  end.

(** [while (occupied.length <= maxRow) occupied.push(new Array(cols).fill(false))].
    The counter [n] is the number of rows still missing. *)
Fixpoint ensureRows_loop (n : nat) (cols maxRow : Z) : M unit := fun occ =>
  if Z.of_nat (length occ) <=? maxRow then
    match n with
    | O => OutOfFuel
    | S k =>
        match newArrayFill cols with
        | Returns cells => ensureRows_loop k cols maxRow (occ ++ [cells])
        | Throws e => Throws e
        | OutOfFuel => OutOfFuel
        end
    end
  else Returns (tt, occ).

Definition ensureRows (cols maxRow : Z) : M unit := fun occ =>
  ensureRows_loop (Z.to_nat (maxRow + 1 - Z.of_nat (length occ))) cols maxRow occ.

(** [markOccupied(col, row, w, h)] *)
Definition markOccupied (cols col row w h : Z) : M unit :=
  forRange row (row + h) (fun r =>
    ensureRows cols r ≫= fun _ =>
    forRange col (col + w) (fun c => setCell r c)).

(** The body of [findFree]'s column loop up to [if (fits)]: [Some tt] when
    [break outer] was taken ([fits = false]), [None] when [fits] stayed true. *)
Definition blockedAt (cols r c w h : Z) : M (option unit) :=
  findRange 0 h (fun dr =>
    ensureRows cols (r + dr) ≫= fun _ =>
    findRange 0 w (fun dc =>
      getCell (r + dr) (c + dc) ≫= fun b : bool =>
      mret (if b then Some tt else None))).

(** [for (let c = 0; c <= cols - w; c++) { ...; if (fits) return {col: c, row: r} }] *)
Definition scanRow (cols r w h : Z) : M (option (Z * Z)) :=
  findRange 0 (cols - w + 1) (fun c =>
    blockedAt cols r c w h ≫= fun b : option unit =>
    mret (match b with None => Some (c, r) | Some _ => None end)).

(** [findFree(w, h)]: [for (let r = 0; ; r++)], the only unbounded loop;
    [fuel] bounds the number of rows it may try.  The result is (col, row). *)
Fixpoint findFree_from (fuel : nat) (cols w h r : Z) : M (Z * Z) :=
  match fuel with
  | O => outOfFuel
  | S k =>
      ensureRows cols (r + h - 1) ≫= fun _ =>
      scanRow cols r w h ≫= fun o : option (Z * Z) =>
      match o with
      | Some pos => mret pos
      | None => findFree_from k cols w h (r + 1)
      end
  end.

Definition findFree (fuel : nat) (cols w h : Z) : M (Z * Z) :=
  findFree_from fuel cols w h 0.

(** ** packItems *)

Section PackItems.
Context `{ItemFootprint}.

(** The body of [for (const slot of slots)]; its value is the placement
    pushed on [placements]. *)
Definition placeSlot (fuel : nat) (cols : Z) (s : Slot) : M Placement :=
  let w := getItemWidth s in
  let h := getItemHeight s in
  match gridX s, gridY s with
  | Some fixedCol, Some fixedRow =>
      markOccupied cols fixedCol fixedRow w h ≫= fun _ =>
      mret (mkPlacement (slot s) fixedCol fixedRow w h)
  | _, _ =>
      findFree fuel cols w h ≫= fun pos : Z * Z =>
      markOccupied cols pos.1 pos.2 w h ≫= fun _ =>
      mret (mkPlacement (slot s) pos.1 pos.2 w h)
  end.

Fixpoint packLoop (fuel : nat) (cols : Z) (slots : list Slot)
    (acc : list Placement) : M (list Placement) :=
  match slots with
  | [] => mret acc
  | s :: rest =>
      placeSlot fuel cols s ≫= fun p => packLoop fuel cols rest (acc ++ [p])
  end.

(** [placements.reduce((m, p) => Math.max(m, p.row + p.h), 0)] *)
Definition maxRowOf (ps : list Placement) : Z :=
  fold_left (fun m p => Z.max m (pl_row p + pl_h p)) ps 0.

(** [packItems(slots, cols)], started on an empty [occupied]. *)
Definition packItems (fuel : nat) (slots : list Slot) (cols : Z) : outcome PackResult :=
  match packLoop fuel cols slots [] [] with
  | Returns (ps, _) => Returns (mkPackResult ps (Z.max (maxRowOf ps) 4))
  | Throws e => Throws e
  | OutOfFuel => OutOfFuel
  end.

End PackItems.

(** ** The empty-cell resolver of the component *)

Definition GRID_COLS : Z := 10.

(** One entry of [emptyCellSlots]: [{ col, row, slot }]. *)
Record EmptyCell := mkEmptyCell {
  ec_col : Z;
  ec_row : Z;
  ec_slot : Slot
}.

(** [slotsToRender.find((s) => s.slot === n)] *)
Definition findSlot (slotsToRender : list Slot) (n : Z) : option Slot :=
  List.find (fun s => slot s =? n) slotsToRender.

(** [placementMap]: the key [`${c},${r}`] is modelled by the pair (c, r). *)
Definition placementMap (ps : list Placement) (slotsToRender : list Slot)
    : gmap (Z * Z) (Placement * Slot) :=
  foldl (fun map p =>
    match findSlot slotsToRender (pl_slot p) with
    | None => map
    | Some s =>
        foldl (fun map r =>
          foldl (fun map c => <[(c, r) := (p, s)]> map)
                map (seqZ (pl_col p) (pl_w p)))
          map (seqZ (pl_row p) (pl_h p))
    end) ∅ ps.

(** [emptyCellSlots]: the loop state is ([result], [emptyIdx]). *)
Definition emptyCellSlots (slotsToRender : list Slot) (rows : Z)
    (pm : gmap (Z * Z) (Placement * Slot)) : list EmptyCell :=
  let emptySlots := filter (fun s => name s = None) slotsToRender in
  fst (foldl (fun st r =>
    foldl (fun (st : list EmptyCell * nat) c =>
      let (result, emptyIdx) := st in
      match pm !! (c, r) with
      | Some _ => (result, emptyIdx)
      | None =>
          match emptySlots !! emptyIdx with
          | Some realSlot => (result ++ [mkEmptyCell c r realSlot], S emptyIdx)
          | None => (result, emptyIdx)
          end
      end) st (seqZ 0 GRID_COLS))
    ([], O) (seqZ 0 rows)).

(** ** Vocabulary of the specification *)

(** The truthiness of [occupied[r][c]] where the row exists, [false] where
    it does not. *)
Definition occAt (occ : Grid) (c r : Z) : bool :=
  match lookupRow occ r with
  | Some cells => default false (cells !! c)
  | None => false
  end.

(** No cell of the w x h rectangle at (c, r) reads as occupied. *)
Definition rectClear (occ : Grid) (c r w h : Z) : Prop :=
  forall dc dr, 0 <= dc < w -> 0 <= dr < h -> occAt occ (c + dc) (r + dr) = false.

(** The cell (c, r) lies in the rectangle [col, col+w) x [row, row+h). *)
Definition inRect (col row w h c r : Z) : bool :=
  (col <=? c) && (c <? col + w) && (row <=? r) && (r <? row + h).

Definition covers (p : Placement) (c r : Z) : bool :=
  inRect (pl_col p) (pl_row p) (pl_w p) (pl_h p) c r.

(** Two placements overlap when some cell lies in both rectangles. *)
Definition overlap (p q : Placement) : Prop :=
  exists c r, covers p c r = true /\ covers q c r = true.

(** The occupancy left by a list of placements. *)
Definition coveredBy (ps : list Placement) (c r : Z) : bool :=
  existsb (fun p => covers p c r) ps.

(** All cells of the w x h rectangle at (c, r) are unoccupied. *)
Definition freeRect (ps : list Placement) (c r w h : Z) : Prop :=
  forall dc dr, 0 <= dc < w -> 0 <= dr < h ->
    coveredBy ps (c + dc) (r + dr) = false.

(** Row-major order on cells given as (row, col). *)
Definition lexLe (r1 c1 r2 c2 : Z) : Prop :=
  r1 < r2 \/ (r1 = r2 /\ c1 <= c2).

(** [p] sits at the first free rectangle of its size, in row-major scan
    order, of a grid of [cols] columns occupied by [earlier]. *)
Definition firstFree (cols : Z) (earlier : list Placement) (p : Placement) : Prop :=
  0 <= pl_row p /\ 0 <= pl_col p <= cols - pl_w p /\
  freeRect earlier (pl_col p) (pl_row p) (pl_w p) (pl_h p) /\
  forall r c, 0 <= r -> 0 <= c <= cols - pl_w p ->
    freeRect earlier c r (pl_w p) (pl_h p) ->
    lexLe (pl_row p) (pl_col p) r c.

(** What the loop body promises about the placement [p] it pushes for the
    slot [s] after the placements [earlier]. *)
Definition placedAs `{ItemFootprint} (cols : Z) (earlier : list Placement)
    (s : Slot) (p : Placement) : Prop :=
  pl_slot p = slot s /\ pl_w p = getItemWidth s /\ pl_h p = getItemHeight s /\
  match gridX s, gridY s with
  | Some x, Some y => pl_col p = x /\ pl_row p = y
  | _, _ => firstFree cols earlier p
  end.

(** Two slots give the packer the same input: same slot number, same
    footprint, same fixed coordinates. *)
Definition sameInput `{ItemFootprint} (s1 s2 : Slot) : Prop :=
  slot s1 = slot s2 /\
  getItemWidth s1 = getItemWidth s2 /\ getItemHeight s1 = getItemHeight s2 /\
  gridX s1 = gridX s2 /\ gridY s1 = gridY s2.


(** A fixed position, when there is one, has a row that exists or can be
    created: it is not negative. *)
Definition fixedRowNonneg (s : Slot) : Prop :=
  forall x y, gridX s = Some x -> gridY s = Some y -> 0 <= y.

(** A slot has a fixed position when both coordinates are defined. *)
Definition isFixed (s : Slot) : bool :=
  match gridX s, gridY s with
  | Some _, Some _ => true
  | _, _ => false
  end.

(** The largest [row + h] of a non-empty list of placements, 0 for none. *)
Fixpoint maxExtent (ps : list Placement) : Z :=
  match ps with
  | [] => 0
  | [p] => pl_row p + pl_h p
  | p :: rest => Z.max (pl_row p + pl_h p) (maxExtent rest)
  end.

(** The cells of a [rows] x [cols] grid in row-major scan order, as (col, row). *)
Definition gridCells (rows cols : Z) : list (Z * Z) :=
  r ← seqZ 0 rows; c ← seqZ 0 cols; [(c, r)].

(** ** Pixel geometry of the component *)

Definition CELL_SIZE : Z := 56.
Definition CELL_GAP : Z := 3.

(** [cellStep], [gridW] and [gridH] of the component body. *)
Definition cellStep : Z := CELL_SIZE + CELL_GAP.
Definition gridW : Z := GRID_COLS * CELL_SIZE + (GRID_COLS - 1) * CELL_GAP.
Definition gridH (rows : Z) : Z := rows * CELL_SIZE + (rows - 1) * CELL_GAP.

(** The position and size props given to an [InventorySlot]. *)
Record Box := mkBox {
  posLeft : Z;
  posTop : Z;
  slotWidth : Z;
  slotHeight : Z
}.

(** The box of an item: [posLeft={p.col * cellStep}], [posTop={p.row * cellStep}],
    [slotWidth={p.w * CELL_SIZE + (p.w - 1) * CELL_GAP}], and the same for
    the height. *)
Definition itemBox (p : Placement) : Box :=
  mkBox (pl_col p * cellStep) (pl_row p * cellStep)
        (pl_w p * CELL_SIZE + (pl_w p - 1) * CELL_GAP)
        (pl_h p * CELL_SIZE + (pl_h p - 1) * CELL_GAP).

(** The box of a drop target: one cell at [col * cellStep], [row * cellStep]. *)
Definition emptyCellBox (e : EmptyCell) : Box :=
  mkBox (ec_col e * cellStep) (ec_row e * cellStep) CELL_SIZE CELL_SIZE.

(** [placements.map((p) => { const slot = slotsToRender.find(...);
    if (!slot) return null; ... })]: the slot and the box of each element,
    [None] for [null]. *)
Definition renderedItems (slotsToRender : list Slot) (ps : list Placement)
    : list (option (Slot * Box)) :=
  (fun p =>
     match findSlot slotsToRender (pl_slot p) with
     | None => None
     | Some s => Some (s, itemBox p)
     end) <$> ps.

(** Two boxes share a pixel. *)
Definition boxesMeet (a b : Box) : Prop :=
  exists x y,
    posLeft a <= x < posLeft a + slotWidth a /\
    posTop a <= y < posTop a + slotHeight a /\
    posLeft b <= x < posLeft b + slotWidth b /\
    posTop b <= y < posTop b + slotHeight b.

(** The values written on the key of the cell (c, r) while [placementMap]
    is built, in the order of the writes. *)
Definition cellEntries (slotsToRender : list Slot) (ps : list Placement)
    (c r : Z) : list (Placement * Slot) :=
  omap (fun p =>
    if covers p c r
    then (fun s => (p, s)) <$> findSlot slotsToRender (pl_slot p)
    else None) ps.

(** ** Scenarios *)

(** Footprints by item name, for the worked scenarios. *)
Definition scenarioFootprint : ItemFootprint := {|
  getItemWidth s :=
    match name s with
    | Some "rifle" => 2 | Some "crate" => 10 | Some "pistol" => 2 | _ => 1
    end;
  getItemHeight s :=
    match name s with
    | Some "rifle" => 2 | Some "crate" => 3 | Some "banner" => 2 | _ => 1
    end
|}.

Definition item (n : Z) (nm : string) : Slot := mkSlot n (Some nm) None None.
Definition itemAt (n : Z) (nm : string) (x y : Z) : Slot :=
  mkSlot n (Some nm) (Some x) (Some y).
Definition emptySlot (n : Z) : Slot := mkSlot n None None None.

(** 1x1, 1x1, 2x2, 1x1, none positioned. *)
Definition fourItems : list Slot :=
  [item 1 "water"; item 2 "bread"; item 3 "rifle"; item 4 "phone"].

(** A 1x2 item fixed at (5, 2), then three unpositioned slots. *)
Definition bannerFirst : list Slot :=
  [itemAt 1 "banner" 5 2; item 2 "bread"; item 3 "rifle"; item 4 "phone"].

(** A slot fixed on the cell the search has just given away. *)
Definition stacked : list Slot := [item 1 "water"; itemAt 2 "bread" 0 0].

(** A 10x3 item, a 2x1 item and two empty slots: 6 cells stay uncovered. *)
Definition almostFull : list Slot :=
  [item 1 "crate"; item 2 "pistol"; emptySlot 3; emptySlot 4].



(** * Properties *)

(** ** The monad *)

Lemma bind_Returns {A B} (m : M A) (f : A -> M B) occ x :
  (m ≫= f) occ = Returns x <->
  exists a occ', m occ = Returns (a, occ') /\ f a occ' = Returns x.
Proof.
  unfold mbind, M_bind.
  destruct (m occ) as [[a o]|e|]; split.
  - intros Hf. by exists a, o.
  - by intros (a' & o' & [= <- <-] & Hf).
  - done.
  - by intros (a' & o' & [=] & _).
  - done.
  - by intros (a' & o' & [=] & _).
Qed.

Lemma bind_Returns_intro {A B} (m : M A) (f : A -> M B) occ a occ' :
  m occ = Returns (a, occ') -> (m ≫= f) occ = f a occ'.
Proof. unfold mbind, M_bind. by intros ->. Qed.

Lemma ret_Returns {A} (a : A) occ x :
  (mret a : M A) occ = Returns x <-> x = (a, occ).
Proof. unfold mret, M_ret. naive_solver. Qed.

(** ** Rows and cells *)

Lemma filledFalse_falsy cols c : default false (filledFalse cols !! c) = false.
Proof.
  unfold filledFalse.
  destruct (list_to_map _ !! c) as [b|] eqn:E; [|done].
  apply elem_of_list_to_map_2, list_elem_of_fmap in E as (c' & [= -> ->] & _).
  done.
Qed.

Lemma lookupRow_Some occ r cells :
  lookupRow occ r = Some cells -> 0 <= r < Z.of_nat (length occ).
Proof.
  unfold lookupRow. destruct (Z.ltb_spec r 0); [done|].
  intros E%lookup_lt_Some. lia.
Qed.

Lemma lookupRow_is_Some occ r :
  0 <= r < Z.of_nat (length occ) -> is_Some (lookupRow occ r).
Proof.
  intros Hr. unfold lookupRow. destruct (Z.ltb_spec r 0); [lia|].
  apply lookup_lt_is_Some. lia.
Qed.

Lemma occAt_beyond occ c r : Z.of_nat (length occ) <= r -> occAt occ c r = false.
Proof.
  intros Hr. unfold occAt.
  destruct (lookupRow occ r) as [cells|] eqn:E; [|done].
  apply lookupRow_Some in E. lia.
Qed.

Lemma occAt_nil c r : occAt [] c r = false.
Proof. unfold occAt, lookupRow. by destruct (r <? 0). Qed.

Lemma occAt_push occ k cols c r :
  occAt (occ ++ replicate k (filledFalse cols)) c r = occAt occ c r.
Proof.
  unfold occAt, lookupRow. destruct (Z.ltb_spec r 0); [done|].
  destruct (decide (Z.to_nat r < length occ)%nat) as [Hlt|Hge].
  - by rewrite lookup_app_l.
  - rewrite lookup_app_r by lia.
    rewrite (lookup_ge_None_2 occ) by lia.
    destruct (replicate _ _ !! _) as [cells|] eqn:E; [|done].
    apply lookup_replicate in E as [-> _]. apply filledFalse_falsy.
Qed.

(** ** ensureRows *)

Lemma ensureRows_loop_Returns n cols m occ u occ' :
  ensureRows_loop n cols m occ = Returns (u, occ') ->
  (exists k, occ' = occ ++ replicate k (filledFalse cols)) /\
  m < Z.of_nat (length occ').
Proof.
  revert occ. induction n as [|n IH]; intros occ; simpl.
  - destruct (Z.leb_spec (Z.of_nat (length occ)) m); [done|].
    intros ?; simplify_eq. split; [|lia]. exists O. by rewrite app_nil_r.
  - destruct (Z.leb_spec (Z.of_nat (length occ)) m).
    + unfold newArrayFill. destruct (cols <? 0); [done|].
      intros [[k ->] Hlen]%IH. split; [|done].
      exists (S k). by rewrite <- app_assoc.
    + intros ?; simplify_eq. split; [|lia]. exists O. by rewrite app_nil_r.
Qed.

Lemma ensureRows_loop_total n cols m occ :
  0 <= cols -> (Z.to_nat (m + 1 - Z.of_nat (length occ)) <= n)%nat ->
  exists occ', ensureRows_loop n cols m occ = Returns (tt, occ').
Proof.
  intros Hc. revert occ. induction n as [|n IH]; intros occ Hn; simpl.
  - destruct (Z.leb_spec (Z.of_nat (length occ)) m); [lia|eauto].
  - destruct (Z.leb_spec (Z.of_nat (length occ)) m); [|eauto].
    unfold newArrayFill. destruct (Z.ltb_spec cols 0); [lia|].
    apply IH. rewrite length_app. simpl. lia.
Qed.

Lemma ensureRows_Returns cols m occ u occ' :
  ensureRows cols m occ = Returns (u, occ') ->
  (forall c r, occAt occ' c r = occAt occ c r) /\
  (forall r, 0 <= r <= m -> is_Some (lookupRow occ' r)).
Proof.
  intros [[k ->] Hlen]%ensureRows_loop_Returns. split.
  - intros. apply occAt_push.
  - intros r Hr. apply lookupRow_is_Some. lia.
Qed.

Lemma ensureRows_total cols m occ :
  0 <= cols -> exists occ', ensureRows cols m occ = Returns (tt, occ').
Proof. intros Hc. by apply ensureRows_loop_total. Qed.

(** ** Booleans of the rectangle tests *)

Lemma inRect_true col row w h c r :
  inRect col row w h c r = true <->
  col <= c < col + w /\ row <= r < row + h.
Proof. unfold inRect. rewrite !andb_true_iff, !Z.leb_le, !Z.ltb_lt. lia. Qed.

Lemma inRect_false col row w h c r :
  inRect col row w h c r = false <->
  ~ (col <= c < col + w /\ row <= r < row + h).
Proof. rewrite <- inRect_true. by destruct (inRect _ _ _ _ _ _). Qed.

Lemma coveredBy_app ps p c r :
  coveredBy (ps ++ [p]) c r = coveredBy ps c r || covers p c r.
Proof. unfold coveredBy. rewrite existsb_app. simpl. by rewrite orb_false_r. Qed.

Lemma coveredBy_true ps c r :
  coveredBy ps c r = true <-> exists p, p ∈ ps /\ covers p c r = true.
Proof.
  unfold coveredBy. rewrite existsb_exists.
  split; intros (p & Hp & Hc); exists p; by rewrite ?list_elem_of_In in *.
Qed.

Lemma coveredBy_false ps c r :
  coveredBy ps c r = false <-> forall p, p ∈ ps -> covers p c r = false.
Proof.
  split.
  - intros Hf p Hp. destruct (covers p c r) eqn:E; [|done].
    rewrite <- Hf. symmetry. apply coveredBy_true. eauto.
  - intros Hall. destruct (coveredBy ps c r) eqn:E; [|done].
    apply coveredBy_true in E as (p & Hp & Hc). by rewrite Hall in Hc.
Qed.

(** ** setCell and the counted loop *)

Lemma setCell_Returns r c occ u occ' :
  setCell r c occ = Returns (u, occ') ->
  forall c' r', occAt occ' c' r' = occAt occ c' r' || ((c' =? c) && (r' =? r)).
Proof.
  unfold setCell. destruct (lookupRow occ r) as [cells|] eqn:E; [|done].
  intros ? c' r'; simplify_eq.
  pose proof (lookupRow_Some _ _ _ E) as Hr.
  unfold occAt, lookupRow in *. destruct (Z.ltb_spec r 0); [lia|].
  destruct (Z.ltb_spec r' 0).
  { destruct (Z.eqb_spec r' r); [lia|]. by rewrite andb_false_r. }
  destruct (Z.eqb_spec r' r) as [->|Hne].
  - rewrite list_lookup_insert_eq by lia. rewrite E. simpl.
    destruct (Z.eqb_spec c' c) as [->|Hc].
    + rewrite lookup_insert_eq. simpl. by rewrite orb_true_r.
    + rewrite lookup_insert_ne by done. by rewrite orb_false_r.
  - rewrite list_lookup_insert_ne by lia. by rewrite andb_false_r, orb_false_r.
Qed.

Lemma setCell_rows r c occ u occ' :
  setCell r c occ = Returns (u, occ') ->
  forall r', is_Some (lookupRow occ r') -> is_Some (lookupRow occ' r').
Proof.
  unfold setCell. destruct (lookupRow occ r) as [cells|] eqn:E; [|done].
  intros ? r' [x Hx%lookupRow_Some]; simplify_eq.
  apply lookupRow_is_Some. by rewrite length_insert.
Qed.

Lemma setCell_total r c occ :
  is_Some (lookupRow occ r) -> exists occ', setCell r c occ = Returns (tt, occ').
Proof. intros [cells E]. unfold setCell. rewrite E. eauto. Qed.

Lemma forUpto_Returns (P : Z -> Grid -> Prop) n i body occ u occ' :
  P i occ ->
  (forall j g u' g', i <= j < i + Z.of_nat n -> P j g ->
     body j g = Returns (u', g') -> P (j + 1) g') ->
  forUpto n i body occ = Returns (u, occ') ->
  P (i + Z.of_nat n) occ'.
Proof.
  revert i occ. induction n as [|n IH]; intros i occ HP Hbody; simpl.
  - intros ?%ret_Returns; simplify_eq. by replace (i + Z.of_nat 0) with i by lia.
  - intros ([] & g & Hb & Hrest)%bind_Returns.
    replace (i + Z.of_nat (S n)) with ((i + 1) + Z.of_nat n) by lia.
    apply (IH (i + 1) g); [| |done].
    + eapply Hbody; [|done|done]. lia.
    + intros j g1 u1 g2 Hj. apply Hbody. lia.
Qed.

Lemma forUpto_total (P : Z -> Grid -> Prop) n i body occ :
  P i occ ->
  (forall j g, i <= j < i + Z.of_nat n -> P j g ->
     exists g', body j g = Returns (tt, g') /\ P (j + 1) g') ->
  exists occ', forUpto n i body occ = Returns (tt, occ') /\ P (i + Z.of_nat n) occ'.
Proof.
  revert i occ. induction n as [|n IH]; intros i occ HP Hbody; simpl.
  - exists occ. split; [done|]. by replace (i + Z.of_nat 0) with i by lia.
  - destruct (Hbody i occ) as (g & Hb & HPg); [lia|done|].
    destruct (IH (i + 1) g) as (occ' & Hrun & HP'); [done| |].
    + intros j g1 Hj. apply Hbody. lia.
    + exists occ'. rewrite (bind_Returns_intro _ _ _ _ _ Hb).
      split; [done|]. by replace (i + Z.of_nat (S n)) with ((i + 1) + Z.of_nat n) by lia.
Qed.

(** ** markOccupied *)

Lemma markRow_Returns r col w occ u occ' :
  forRange col (col + w) (fun c => setCell r c) occ = Returns (u, occ') ->
  forall c' r', occAt occ' c' r' =
    occAt occ c' r' || ((r' =? r) && (col <=? c') && (c' <? col + w)).
Proof.
  unfold forRange. intros Hrun.
  pose (P := fun (j : Z) (g : Grid) => forall c' r', occAt g c' r' =
    occAt occ c' r' || ((r' =? r) && (col <=? c') && (c' <? j))).
  assert (P (col + Z.of_nat (Z.to_nat (col + w - col))) occ') as HP.
  { eapply (forUpto_Returns P); [| |exact Hrun].
    - intros c' r'. destruct (Z.leb_spec col c'), (Z.ltb_spec c' col);
        try lia; by rewrite ?andb_false_r, ?orb_false_r.
    - intros j g u' g' Hj HPg Hset c' r'.
      rewrite (setCell_Returns _ _ _ _ _ Hset), HPg.
      destruct (occAt occ c' r'); [done|]. simpl.
      destruct (Z.eqb_spec r' r), (Z.eqb_spec c' j), (Z.leb_spec col c'),
        (Z.ltb_spec c' j), (Z.ltb_spec c' (j + 1)); simpl; try done; lia. }
  intros c' r'. rewrite HP. f_equal.
  destruct (Z.eqb r' r); [simpl|done].
  destruct (Z.leb_spec col c'); [simpl|done].
  destruct (Z.ltb_spec c' (col + w)),
    (Z.ltb_spec c' (col + Z.of_nat (Z.to_nat (col + w - col)))); try done; lia.
Qed.

Ltac bool_lia :=
  apply eq_iff_eq_true;
  repeat rewrite ?orb_true_iff, ?andb_true_iff, ?inRect_true,
    ?Z.eqb_eq, ?Z.leb_le, ?Z.ltb_lt;
  lia.

Lemma markRow_total r col w occ :
  is_Some (lookupRow occ r) ->
  exists occ', forRange col (col + w) (fun c => setCell r c) occ = Returns (tt, occ').
Proof.
  intros Hrow. unfold forRange.
  destruct (forUpto_total (fun _ g => is_Some (lookupRow g r))
              (Z.to_nat (col + w - col)) col (fun c => setCell r c) occ)
    as (occ' & Hrun & _); [done| |by exists occ'].
  intros j g _ Hg. destruct (setCell_total r j g Hg) as [g' Hset].
  exists g'. split; [done|]. by eapply setCell_rows.
Qed.

Lemma markOccupied_Returns cols col row w h occ u occ' :
  markOccupied cols col row w h occ = Returns (u, occ') ->
  forall c r, occAt occ' c r = occAt occ c r || inRect col row w h c r.
Proof.
  unfold markOccupied, forRange. intros Hrun.
  pose (P := fun (j : Z) (g : Grid) => forall c r,
    occAt g c r = occAt occ c r || inRect col row w (j - row) c r).
  assert (P (row + Z.of_nat (Z.to_nat (row + h - row))) occ') as HP.
  { eapply (forUpto_Returns P); [| |exact Hrun].
    - intros c r. destruct (occAt occ c r); [done|]. simpl.
      symmetry. apply inRect_false. lia.
    - intros j g u' g' Hj HPg ([] & g1 & Hens & Hrow)%bind_Returns c r.
      apply ensureRows_Returns in Hens as [Hsame _].
      rewrite (markRow_Returns _ _ _ _ _ _ Hrow), Hsame, HPg.
      destruct (occAt occ c r); [done|]. simpl. bool_lia. }
  intros c r. rewrite HP. f_equal. bool_lia.
Qed.

Lemma markOccupied_total cols col row w h occ :
  0 <= cols -> 0 <= row ->
  exists occ', markOccupied cols col row w h occ = Returns (tt, occ').
Proof.
  intros Hcols Hrow. unfold markOccupied, forRange.
  destruct (forUpto_total (fun _ _ => True) (Z.to_nat (row + h - row)) row
    (fun r => ensureRows cols r ≫= fun _ =>
       forUpto (Z.to_nat (col + w - col)) col (fun c => setCell r c)) occ)
    as (occ' & Hrun & _); [done| |by exists occ'].
  intros j g Hj _.
  destruct (ensureRows_total cols j g Hcols) as [g1 Hens].
  pose proof (ensureRows_Returns _ _ _ _ _ Hens) as [_ Hrows].
  destruct (markRow_total j col w g1) as [g2 Hmark]; [apply Hrows; lia|].
  exists g2. split; [|done].
  by rewrite (bind_Returns_intro _ _ _ _ _ Hens).
Qed.

(** ** The loop with early exit *)

Lemma findUpto_Returns {A} (P : Grid -> Prop) (hit : Z -> A -> Prop)
    (miss : Z -> Prop) n i (body : Z -> M (option A)) occ o occ' :
  P occ ->
  (forall j g o' g', i <= j < i + Z.of_nat n -> P g ->
     body j g = Returns (o', g') ->
     P g' /\ match o' with Some a => hit j a | None => miss j end) ->
  findUpto n i body occ = Returns (o, occ') ->
  P occ' /\
  match o with
  | Some a => exists j, i <= j < i + Z.of_nat n /\ hit j a /\
                        forall k, i <= k < j -> miss k
  | None => forall k, i <= k < i + Z.of_nat n -> miss k
  end.
Proof.
  revert i occ. induction n as [|n IH]; intros i occ HP Hbody; simpl.
  - intros ?%ret_Returns; simplify_eq. split; [done|]. intros k Hk; lia.
  - intros (o1 & g & Hb & Hrest)%bind_Returns.
    destruct (Hbody i occ o1 g) as [HPg Ho1]; [lia|done|done|].
    destruct o1 as [a|].
    + apply ret_Returns in Hrest; simplify_eq. split; [done|].
      exists i. split; [lia|]. split; [done|]. intros k Hk; lia.
    + apply (IH (i + 1) g) in Hrest as [HP' Ho]; [|done|].
      * split; [done|]. destruct o as [a|].
        -- destruct Ho as (j & Hj & Hhit & Hmiss). exists j.
           split; [lia|]. split; [done|]. intros k Hk.
           destruct (decide (k = i)) as [->|]; [done|]. apply Hmiss; lia.
        -- intros k Hk. destruct (decide (k = i)) as [->|]; [done|].
           apply Ho; lia.
      * intros j g1 o' g2 Hj. apply Hbody. lia.
Qed.

Lemma findUpto_total {A} (P : Grid -> Prop) n i (body : Z -> M (option A)) occ :
  P occ ->
  (forall j g, i <= j < i + Z.of_nat n -> P g ->
     exists o' g', body j g = Returns (o', g') /\ P g') ->
  exists o occ', findUpto n i body occ = Returns (o, occ') /\ P occ'.
Proof.
  revert i occ. induction n as [|n IH]; intros i occ HP Hbody; simpl.
  - by exists None, occ.
  - destruct (Hbody i occ) as (o1 & g & Hb & HPg); [lia|done|].
    rewrite (bind_Returns_intro _ _ _ _ _ Hb). destruct o1 as [a|].
    + by exists (Some a), g.
    + apply IH; [done|]. intros j g1 Hj. apply Hbody. lia.
Qed.

(** ** findFree *)

Lemma rectClear_ext occ occ' c r w h :
  (forall c' r', occAt occ' c' r' = occAt occ c' r') ->
  rectClear occ' c r w h <-> rectClear occ c r w h.
Proof.
  intros Hsame. unfold rectClear.
  split; intros Hc dc dr Hdc Hdr; [rewrite <- Hsame|rewrite Hsame]; by apply Hc.
Qed.

Lemma getCell_Returns r c occ b occ' :
  getCell r c occ = Returns (b, occ') -> occ' = occ /\ b = occAt occ c r.
Proof.
  unfold getCell, occAt. destruct (lookupRow occ r); [|done].
  by intros ?; simplify_eq.
Qed.

Lemma getCell_total r c occ :
  is_Some (lookupRow occ r) -> exists b, getCell r c occ = Returns (b, occ).
Proof. intros [cells E]. unfold getCell. rewrite E. eauto. Qed.

Lemma blockedAt_Returns cols r c w h occ o occ' :
  blockedAt cols r c w h occ = Returns (o, occ') ->
  (forall c' r', occAt occ' c' r' = occAt occ c' r') /\
  (o = None <-> rectClear occ c r w h).
Proof.
  unfold blockedAt, findRange. intros Hrun.
  eapply (findUpto_Returns (fun g => forall c' r', occAt g c' r' = occAt occ c' r')
    (fun dr _ => exists dc, 0 <= dc < w /\ occAt occ (c + dc) (r + dr) = true)
    (fun dr => forall dc, 0 <= dc < w -> occAt occ (c + dc) (r + dr) = false))
    in Hrun as [Hsame Ho]; [|done|].
  - split; [done|]. destruct o as [[]|].
    + destruct Ho as (dr & Hdr & (dc & Hdc & Hocc) & _).
      split; [done|]. intros Hclear. rewrite Hclear in Hocc; [done|lia|lia].
    + split; [|done]. intros _ dc dr Hdc Hdr. apply Ho; lia.
  - intros dr g o' g' Hdr Hg ([] & g1 & Hens & Hin)%bind_Returns.
    apply ensureRows_Returns in Hens as [Hsame1 _].
    eapply (findUpto_Returns (fun g2 => g2 = g1)
      (fun dc _ => occAt occ (c + dc) (r + dr) = true)
      (fun dc => occAt occ (c + dc) (r + dr) = false))
      in Hin as [-> Ho']; [| done |].
    + split; [intros; by rewrite Hsame1|]. destruct o' as [[]|].
      * destruct Ho' as (dc & Hdc & Hocc & _). exists dc. split; [lia|done].
      * intros dc Hdc. apply Ho'; lia.
    + intros dc g2 o2 g3 Hdc -> (b & g4 & Hget & Hret)%bind_Returns.
      apply getCell_Returns in Hget as [-> ->].
      apply ret_Returns in Hret; simplify_eq. split; [done|].
      rewrite Hsame1, Hg. by destruct (occAt occ (c + dc) (r + dr)).
Qed.

Lemma blockedAt_total cols r c w h occ :
  0 <= cols -> 0 <= r ->
  exists o occ', blockedAt cols r c w h occ = Returns (o, occ').
Proof.
  intros Hcols Hr. unfold blockedAt, findRange.
  edestruct (findUpto_total (A := unit) (fun _ => True)) as (o & occ' & Hrun & _);
    [done| |by exists o, occ'; apply Hrun].
  intros dr g Hdr _. simpl.
  destruct (ensureRows_total cols (r + dr) g Hcols) as [g1 Hens].
  pose proof (ensureRows_Returns _ _ _ _ _ Hens) as [_ Hrows].
  rewrite (bind_Returns_intro _ _ _ _ _ Hens).
  edestruct (findUpto_total (A := unit) (fun g2 => g2 = g1))
    as (o' & g' & Hin & ->); [done| |by exists o', g1; split; [apply Hin|]].
  intros dc g2 Hdc ->. simpl.
  destruct (getCell_total (r + dr) (c + dc) g1) as [b Hget]; [apply Hrows; lia|].
  rewrite (bind_Returns_intro _ _ _ _ _ Hget). by eexists _, g1.
Qed.

Lemma scanRow_Returns cols r w h occ o occ' :
  scanRow cols r w h occ = Returns (o, occ') ->
  (forall c' r', occAt occ' c' r' = occAt occ c' r') /\
  match o with
  | Some (c, r') =>
      r' = r /\ 0 <= c <= cols - w /\ rectClear occ c r w h /\
      forall c', 0 <= c' < c -> ~ rectClear occ c' r w h
  | None => forall c', 0 <= c' <= cols - w -> ~ rectClear occ c' r w h
  end.
Proof.
  unfold scanRow, findRange. intros Hrun.
  eapply (findUpto_Returns (fun g => forall c' r', occAt g c' r' = occAt occ c' r')
    (fun c pos => pos = (c, r) /\ rectClear occ c r w h)
    (fun c => ~ rectClear occ c r w h))
    in Hrun as [Hsame Ho]; [|done|].
  - split; [done|]. destruct o as [[c r']|].
    + destruct Ho as (j & Hj & [[= -> ->] Hclear] & Hmiss).
      split; [done|]. split; [lia|]. split; [done|]. intros c' Hc'.
      apply Hmiss; lia.
    + intros c' Hc'. apply Ho; lia.
  - intros c g o' g' Hc Hg (b & g1 & Hblk & Hret)%bind_Returns.
    apply blockedAt_Returns in Hblk as [Hsame1 Hb].
    apply ret_Returns in Hret; simplify_eq.
    split; [intros; by rewrite Hsame1|].
    rewrite (rectClear_ext occ g) in Hb by done.
    destruct b as [[]|].
    + intros Hclear. by apply Hb in Hclear.
    + split; [done|]. by apply Hb.
Qed.

Lemma scanRow_total cols r w h occ :
  0 <= cols -> 0 <= r ->
  exists o occ', scanRow cols r w h occ = Returns (o, occ').
Proof.
  intros Hcols Hr. unfold scanRow, findRange.
  edestruct (findUpto_total (A := Z * Z) (fun _ => True))
    as (o & occ' & Hrun & _); [done| |by exists o, occ'; apply Hrun].
  intros c g Hc _. simpl.
  destruct (blockedAt_total cols r c w h g Hcols Hr) as (b & g' & Hblk).
  rewrite (bind_Returns_intro _ _ _ _ _ Hblk). by eexists _, g'.
Qed.

Lemma findFree_from_Returns fuel cols w h r0 occ c r occ' :
  findFree_from fuel cols w h r0 occ = Returns ((c, r), occ') ->
  (forall c' r', occAt occ' c' r' = occAt occ c' r') /\
  r0 <= r /\ 0 <= c <= cols - w /\ rectClear occ c r w h /\
  forall r' c', r0 <= r' -> 0 <= c' <= cols - w ->
    rectClear occ c' r' w h -> lexLe r c r' c'.
Proof.
  revert r0 occ. induction fuel as [|fuel IH]; intros r0 occ; simpl; [done|].
  intros ([] & g1 & Hens & (o & g2 & Hscan & Hrest)%bind_Returns)%bind_Returns.
  apply ensureRows_Returns in Hens as [Hsame1 _].
  apply scanRow_Returns in Hscan as [Hsame2 Ho].
  assert (forall c' r', occAt g2 c' r' = occAt occ c' r') as Hsame
    by (intros; by rewrite Hsame2, Hsame1).
  destruct o as [[c1 r1]|].
  - destruct Ho as (-> & Hc & Hclear & Hmiss).
    apply ret_Returns in Hrest. injection Hrest as <- <- <-.
    rewrite (rectClear_ext occ g1) in Hclear by done.
    split; [done|]. split; [lia|]. split; [done|]. split; [done|].
    intros r' c' Hr' Hc' Hfree. unfold lexLe.
    destruct (decide (r < r')); [by left|]. right. split; [lia|].
    destruct (decide (c <= c')); [done|]. exfalso.
    apply (Hmiss c'); [lia|]. apply (rectClear_ext occ g1); [done|].
    by replace r with r' by lia.
  - apply IH in Hrest as (Hsame3 & Hr & Hc & Hclear & Hleast).
    split; [intros; by rewrite Hsame3, Hsame|].
    split; [lia|]. split; [done|].
    split; [by apply (rectClear_ext occ g2)|].
    intros r' c' Hr' Hc' Hfree.
    destruct (decide (r' = r0)) as [->|].
    + exfalso. apply (Ho c'); [done|]. by apply (rectClear_ext occ g1).
    + apply Hleast; [lia|done|]. by apply (rectClear_ext occ g2).
Qed.

Lemma findFree_from_total fuel cols w h r0 occ R :
  0 <= cols -> w <= cols -> 0 <= r0 ->
  (forall c r, R <= r -> occAt occ c r = false) ->
  (Z.to_nat (R - r0) < fuel)%nat ->
  exists pos occ', findFree_from fuel cols w h r0 occ = Returns (pos, occ').
Proof.
  intros Hcols Hw. revert r0 occ.
  induction fuel as [|fuel IH]; intros r0 occ Hr0 Habove Hfuel; [lia|]. simpl.
  destruct (ensureRows_total cols (r0 + h - 1) occ Hcols) as [g1 Hens].
  rewrite (bind_Returns_intro _ _ _ _ _ Hens).
  apply ensureRows_Returns in Hens as [Hsame1 _].
  destruct (scanRow_total cols r0 w h g1 Hcols Hr0) as (o & g2 & Hscan).
  rewrite (bind_Returns_intro _ _ _ _ _ Hscan).
  apply scanRow_Returns in Hscan as [Hsame2 Ho].
  destruct o as [pos|]; [by exists pos, g2|].
  assert (r0 < R) as Hlt.
  { destruct (decide (r0 < R)); [done|]. exfalso.
    apply (Ho 0); [lia|]. intros dc dr Hdc Hdr.
    rewrite Hsame1. apply Habove. lia. }
  apply IH; [lia| |lia].
  intros c r Hr. rewrite Hsame2, Hsame1. by apply Habove.
Qed.

Lemma findFree_from_mono fuel fuel' cols w h r0 occ x :
  findFree_from fuel cols w h r0 occ = Returns x ->
  (fuel <= fuel')%nat ->
  findFree_from fuel' cols w h r0 occ = Returns x.
Proof.
  revert fuel' r0 occ.
  induction fuel as [|fuel IH]; intros fuel' r0 occ; simpl; [done|].
  intros ([] & g1 & Hens & (o & g2 & Hscan & Hrest)%bind_Returns)%bind_Returns Hle.
  destruct fuel' as [|fuel']; [lia|]. simpl.
  rewrite (bind_Returns_intro _ _ _ _ _ Hens).
  rewrite (bind_Returns_intro _ _ _ _ _ Hscan).
  destruct o as [pos|]; [done|]. apply IH; [done|lia].
Qed.

(** A footprint wider than the grid is never placed: the column loop has no
    iteration, so the search only stops when it is cut off. *)
Lemma findFree_too_wide fuel cols w h occ x :
  cols < w -> findFree fuel cols w h occ <> Returns x.
Proof.
  intros Hwide Hrun. destruct x as [[c r] occ'].
  apply findFree_from_Returns in Hrun as (_ & _ & Hc & _). lia.
Qed.

(** ** The loop of packItems *)

Section PackItemsFacts.
Context `{ItemFootprint}.

Lemma findFree_firstFree fuel cols n w h occ acc c r occ' :
  (forall c' r', occAt occ c' r' = coveredBy acc c' r') ->
  findFree fuel cols w h occ = Returns ((c, r), occ') ->
  (forall c' r', occAt occ' c' r' = occAt occ c' r') /\
  firstFree cols acc (mkPlacement n c r w h).
Proof.
  intros Hinv (Hsame & Hr & Hc & Hclear & Hleast)%findFree_from_Returns.
  assert (forall c' r', rectClear occ c' r' w h <-> freeRect acc c' r' w h) as Hfree.
  { intros c' r'. unfold rectClear, freeRect.
    split; intros Hx dc dr Hdc Hdr; [rewrite <- Hinv|rewrite Hinv]; by apply Hx. }
  split; [done|]. unfold firstFree; simpl.
  split; [done|]. split; [done|]. split; [by apply Hfree|].
  intros r' c' Hr' Hc' Hf. apply Hleast; [done|done|]. by apply Hfree.
Qed.

Lemma placeSlot_Returns fuel cols s occ acc p occ' :
  (forall c r, occAt occ c r = coveredBy acc c r) ->
  placeSlot fuel cols s occ = Returns (p, occ') ->
  placedAs cols acc s p /\
  (forall c r, occAt occ' c r = coveredBy (acc ++ [p]) c r).
Proof.
  intros Hinv. unfold placeSlot, placedAs.
  assert (
    (findFree fuel cols (getItemWidth s) (getItemHeight s) ≫= fun pos : Z * Z =>
     markOccupied cols pos.1 pos.2 (getItemWidth s) (getItemHeight s) ≫= fun _ =>
     mret (mkPlacement (slot s) pos.1 pos.2 (getItemWidth s) (getItemHeight s)))
      occ = Returns (p, occ') ->
    pl_slot p = slot s /\ pl_w p = getItemWidth s /\ pl_h p = getItemHeight s /\
    firstFree cols acc p /\
    (forall c r, occAt occ' c r = coveredBy (acc ++ [p]) c r)) as Hsearch.
  { intros ([c r] & g1 & Hfind & ([] & g2 & Hmark & Hret)%bind_Returns)%bind_Returns.
    apply ret_Returns in Hret. injection Hret as -> ->. simpl in *.
    eapply findFree_firstFree in Hfind as [Hsame Hfirst]; [|done].
    split; [done|]. split; [done|]. split; [done|]. split; [apply Hfirst|].
    intros c' r'.
    rewrite (markOccupied_Returns _ _ _ _ _ _ _ _ Hmark), Hsame, Hinv.
    by rewrite coveredBy_app. }
  destruct (gridX s) as [x|], (gridY s) as [y|];
    try (intros Hrun; apply Hsearch in Hrun; tauto).
  intros ([] & g1 & Hmark & Hret)%bind_Returns.
  apply ret_Returns in Hret. injection Hret as -> ->.
  split; [done|]. intros c r.
  rewrite (markOccupied_Returns _ _ _ _ _ _ _ _ Hmark), Hinv.
  by rewrite coveredBy_app.
Qed.

Lemma packLoop_Returns fuel cols slots acc occ ps occ' :
  (forall c r, occAt occ c r = coveredBy acc c r) ->
  packLoop fuel cols slots acc occ = Returns (ps, occ') ->
  exists new, ps = acc ++ new /\ length new = length slots /\
    forall i s, slots !! i = Some s ->
      exists p, new !! i = Some p /\ placedAs cols (acc ++ take i new) s p.
Proof.
  revert acc occ. induction slots as [|s0 rest IH]; intros acc occ Hinv; simpl.
  - intros ?%ret_Returns; simplify_eq. exists []. by rewrite app_nil_r.
  - intros (p0 & g1 & Hplace & Hrest)%bind_Returns.
    destruct (placeSlot_Returns _ _ _ _ _ _ _ Hinv Hplace) as [Hp0 Hinv1].
    destruct (IH _ _ Hinv1 Hrest) as (new & -> & Hlen & Hall).
    exists (p0 :: new). split; [by rewrite <- app_assoc|].
    split; [simpl; by rewrite Hlen|].
    intros [|i] s Hs; simpl in *.
    + simplify_eq. exists p0. by rewrite app_nil_r.
    + destruct (Hall i s Hs) as (p & Hp & Hplaced). exists p.
      split; [done|]. by rewrite <- app_assoc in Hplaced.
Qed.

Lemma packItems_Returns fuel slots cols res :
  packItems fuel slots cols = Returns res ->
  rows res = Z.max (maxRowOf (placements res)) 4 /\
  length (placements res) = length slots /\
  forall i s, slots !! i = Some s ->
    exists p, placements res !! i = Some p /\
              placedAs cols (take i (placements res)) s p.
Proof.
  unfold packItems.
  destruct (packLoop fuel cols slots [] []) as [[ps occ']|e|] eqn:Hrun; [|done|done].
  intros ?; simplify_eq. simpl.
  apply packLoop_Returns in Hrun as (new & -> & Hlen & Hall);
    [done|apply occAt_nil].
Qed.

(** *** Independence of the bound on the search *)

Lemma placeSlot_mono fuel fuel' cols s occ x :
  placeSlot fuel cols s occ = Returns x -> (fuel <= fuel')%nat ->
  placeSlot fuel' cols s occ = Returns x.
Proof.
  unfold placeSlot. intros Hrun Hle.
  assert (forall k : Z * Z -> M Placement,
    (findFree fuel cols (getItemWidth s) (getItemHeight s) ≫= k) occ = Returns x ->
    (findFree fuel' cols (getItemWidth s) (getItemHeight s) ≫= k) occ = Returns x)
    as Hsearch.
  { intros k (pos & g & Hfind & Hk)%bind_Returns.
    apply bind_Returns. exists pos, g. split; [|done].
    by apply (findFree_from_mono fuel). }
  destruct (gridX s), (gridY s); try done; by apply Hsearch.
Qed.

Lemma packLoop_mono fuel fuel' cols slots acc occ x :
  packLoop fuel cols slots acc occ = Returns x -> (fuel <= fuel')%nat ->
  packLoop fuel' cols slots acc occ = Returns x.
Proof.
  revert acc occ. induction slots as [|s rest IH]; intros acc occ; simpl; [done|].
  intros (p & g & Hplace & Hrest)%bind_Returns Hle.
  apply bind_Returns. exists p, g.
  split; [by apply (placeSlot_mono fuel)|by apply IH].
Qed.

Lemma packItems_mono fuel fuel' slots cols res :
  packItems fuel slots cols = Returns res -> (fuel <= fuel')%nat ->
  packItems fuel' slots cols = Returns res.
Proof.
  unfold packItems. intros Hrun Hle.
  destruct (packLoop fuel cols slots [] []) as [[ps occ']|e|] eqn:E; [|done|done].
  by rewrite (packLoop_mono _ _ _ _ _ _ _ E Hle).
Qed.

(** *** The loop returns *)

Lemma placeSlot_total cols s occ :
  0 <= cols -> getItemWidth s <= cols -> fixedRowNonneg s ->
  exists p occ', placeSlot (S (length occ)) cols s occ = Returns (p, occ').
Proof.
  intros Hcols Hw Hfixed. unfold placeSlot.
  assert (exists p occ',
    (findFree (S (length occ)) cols (getItemWidth s) (getItemHeight s) ≫=
     fun pos : Z * Z =>
     markOccupied cols pos.1 pos.2 (getItemWidth s) (getItemHeight s) ≫= fun _ =>
     mret (mkPlacement (slot s) pos.1 pos.2 (getItemWidth s) (getItemHeight s)))
      occ = Returns (p, occ')) as Hsearch.
  { destruct (findFree_from_total (S (length occ)) cols (getItemWidth s)
                (getItemHeight s) 0 occ (Z.of_nat (length occ)))
      as ([c r] & g1 & Hfind); [done|done|done| |lia|].
    { intros c r Hr. by apply occAt_beyond. }
    unfold findFree. rewrite (bind_Returns_intro _ _ _ _ _ Hfind). simpl.
    apply findFree_from_Returns in Hfind as (_ & Hr & _).
    destruct (markOccupied_total cols c r (getItemWidth s) (getItemHeight s) g1)
      as [g2 Hmark]; [done|done|].
    rewrite (bind_Returns_intro _ _ _ _ _ Hmark). by eexists _, g2. }
  destruct (gridX s) as [x|] eqn:Ex, (gridY s) as [y|] eqn:Ey; try done.
  destruct (markOccupied_total cols x y (getItemWidth s) (getItemHeight s) occ)
    as [g1 Hmark]; [done|by eapply Hfixed|].
  rewrite (bind_Returns_intro _ _ _ _ _ Hmark). by eexists _, g1.
Qed.

Lemma packLoop_total cols slots acc occ :
  0 <= cols ->
  Forall (fun s => getItemWidth s <= cols) slots ->
  Forall fixedRowNonneg slots ->
  exists fuel ps occ', packLoop fuel cols slots acc occ = Returns (ps, occ').
Proof.
  intros Hcols Hw Hfixed. revert acc occ.
  induction slots as [|s rest IH]; intros acc occ; simpl.
  - by exists O, acc, occ.
  - apply Forall_cons in Hw as [Hw Hws]. apply Forall_cons in Hfixed as [Hf Hfs].
    destruct (placeSlot_total cols s occ Hcols Hw Hf) as (p & g & Hplace).
    destruct (IH Hws Hfs (acc ++ [p]) g) as (fuel & ps & occ' & Hrest).
    exists (Nat.max (S (length occ)) fuel), ps, occ'.
    apply bind_Returns. exists p, g. split.
    + apply (placeSlot_mono (S (length occ))); [done|lia].
    + apply (packLoop_mono fuel); [done|lia].
Qed.

(** *** The loop returns when the searched slots fit *)

Lemma placeSlot_total_searched cols s occ :
  0 <= cols -> (isFixed s = false -> getItemWidth s <= cols) ->
  fixedRowNonneg s ->
  exists p occ', placeSlot (S (length occ)) cols s occ = Returns (p, occ').
Proof.
  intros Hcols Hw Hfixed.
  destruct (isFixed s) eqn:Hfix; [|by apply placeSlot_total; auto].
  unfold isFixed in Hfix. unfold placeSlot.
  destruct (gridX s) as [x|] eqn:Ex; [|done].
  destruct (gridY s) as [y|] eqn:Ey; [|done].
  destruct (markOccupied_total cols x y (getItemWidth s) (getItemHeight s) occ)
    as [g1 Hmark]; [done|by eapply Hfixed|].
  rewrite (bind_Returns_intro _ _ _ _ _ Hmark). by eexists _, g1.
Qed.

Lemma packLoop_total_searched cols slots acc occ :
  0 <= cols ->
  Forall (fun s => isFixed s = false -> getItemWidth s <= cols) slots ->
  Forall fixedRowNonneg slots ->
  exists fuel ps occ', packLoop fuel cols slots acc occ = Returns (ps, occ').
Proof.
  intros Hcols Hw Hfixed. revert acc occ.
  induction slots as [|s rest IH]; intros acc occ; simpl.
  - by exists O, acc, occ.
  - apply Forall_cons in Hw as [Hw Hws]. apply Forall_cons in Hfixed as [Hf Hfs].
    destruct (placeSlot_total_searched cols s occ Hcols Hw Hf) as (p & g & Hplace).
    destruct (IH Hws Hfs (acc ++ [p]) g) as (fuel & ps & occ' & Hrest).
    exists (Nat.max (S (length occ)) fuel), ps, occ'.
    apply bind_Returns. exists p, g. split.
    + apply (placeSlot_mono (S (length occ))); [done|lia].
    + apply (packLoop_mono fuel); [done|lia].
Qed.

(** *** Only the slot number, the footprint and the fixed position matter *)

Lemma placeSlot_ext fuel cols s1 s2 occ :
  sameInput s1 s2 -> placeSlot fuel cols s1 occ = placeSlot fuel cols s2 occ.
Proof.
  intros (Hslot & Hw & Hh & Hx & Hy). unfold placeSlot.
  by rewrite Hslot, Hw, Hh, Hx, Hy.
Qed.


Lemma packLoop_ext fuel cols slots1 slots2 acc occ :
  Forall2 (fun s1 s2 => forall g, placeSlot fuel cols s1 g = placeSlot fuel cols s2 g)
    slots1 slots2 ->
  packLoop fuel cols slots1 acc occ = packLoop fuel cols slots2 acc occ.
Proof.
  intros Hsame. revert acc occ.
  induction Hsame as [|s1 s2 rest1 rest2 Hs _ IH]; intros acc occ; simpl; [done|].
  unfold mbind, M_bind. rewrite Hs.
  destruct (placeSlot fuel cols s2 occ) as [[p g]|e|]; [apply IH|done|done].
Qed.

Lemma packItems_ext fuel cols slots1 slots2 :
  Forall2 (fun s1 s2 => forall g, placeSlot fuel cols s1 g = placeSlot fuel cols s2 g)
    slots1 slots2 ->
  packItems fuel slots1 cols = packItems fuel slots2 cols.
Proof. intros Hsame. unfold packItems. by rewrite (packLoop_ext _ _ _ slots2). Qed.

Lemma fold_left_maxExtent ps m :
  ps <> [] ->
  fold_left (fun m p => Z.max m (pl_row p + pl_h p)) ps m = Z.max m (maxExtent ps).
Proof.
  revert m. induction ps as [|p ps IH]; intros m Hne; [done|].
  destruct ps as [|p' ps]; [done|].
  change (fold_left _ (p :: p' :: ps) m) with
    (fold_left (fun m p => Z.max m (pl_row p + pl_h p)) (p' :: ps)
       (Z.max m (pl_row p + pl_h p))).
  rewrite IH by done.
  change (maxExtent (p :: p' :: ps)) with
    (Z.max (pl_row p + pl_h p) (maxExtent (p' :: ps))).
  lia.
Qed.

(** *** Reading the promise of the loop body *)

Lemma placedAs_search cols earlier s p :
  placedAs cols earlier s p -> isFixed s = false -> firstFree cols earlier p.
Proof.
  intros (_ & _ & _ & Hpos). unfold isFixed.
  by destruct (gridX s), (gridY s).
Qed.

Lemma placedAs_fixed cols earlier s p x y :
  placedAs cols earlier s p -> gridX s = Some x -> gridY s = Some y ->
  p = mkPlacement (slot s) x y (getItemWidth s) (getItemHeight s).
Proof.
  intros (Hslot & Hw & Hh & Hpos) Hx Hy. rewrite Hx, Hy in Hpos.
  destruct p, Hpos; simpl in *; by subst.
Qed.


Lemma firstFree_no_overlap cols earlier p q :
  firstFree cols earlier q -> p ∈ earlier -> ~ overlap p q.
Proof.
  intros (_ & _ & Hfree & _) Hp (c & r & Hpc & Hqc).
  apply inRect_true in Hqc as [Hc Hr].
  specialize (Hfree (c - pl_col q) (r - pl_row q)).
  replace (pl_col q + (c - pl_col q)) with c in Hfree by lia.
  replace (pl_row q + (r - pl_row q)) with r in Hfree by lia.
  rewrite coveredBy_false in Hfree.
  rewrite Hfree in Hpc; [done|lia|lia|done].
Qed.

(** *** Unit cells in row-major order *)

Lemma firstFree_unit_cell cols earlier p i :
  0 < cols -> 0 <= i -> pl_w p = 1 -> pl_h p = 1 ->
  firstFree cols earlier p ->
  (forall c r, coveredBy earlier c r = true <->
     exists j, 0 <= j < i /\ c = j mod cols /\ r = j / cols) ->
  pl_col p = i mod cols /\ pl_row p = i / cols.
Proof.
  intros Hcols Hi Hw Hh (Hr & Hc & Hfree & Hleast) Hcov.
  rewrite Hw, Hh in *.
  pose proof (Z.mod_pos_bound i cols Hcols) as Hm.
  pose proof (Z.div_mod i cols ltac:(lia)) as Hdm.
  assert (0 <= i / cols) as Hq by (apply Z.div_pos; lia).
  assert (lexLe (pl_row p) (pl_col p) (i / cols) (i mod cols)) as Hle.
  { apply Hleast; [done|lia|]. intros dc dr Hdc Hdr.
    replace dc with 0 by lia. replace dr with 0 by lia. rewrite !Z.add_0_r.
    destruct (coveredBy earlier (i mod cols) (i / cols)) eqn:E; [|done].
    apply Hcov in E as (j & Hj & Hjm & Hjq).
    pose proof (Z.div_mod j cols ltac:(lia)). lia. }
  specialize (Hfree 0 0 ltac:(lia) ltac:(lia)). rewrite !Z.add_0_r in Hfree.
  assert (~ (cols * pl_row p + pl_col p < i)) as Hge.
  { intros Hlt. assert (coveredBy earlier (pl_col p) (pl_row p) = true) as E;
      [|by rewrite E in Hfree].
    apply Hcov. exists (cols * pl_row p + pl_col p). split; [nia|]. split.
    - apply Z.mod_unique_pos with (pl_row p); lia.
    - apply Z.div_unique_pos with (pl_col p); lia. }
  destruct Hle as [Hlt|[Heq Hle]]; [exfalso; nia|]. split; nia.
Qed.

End PackItemsFacts.

(** ** The empty-cell resolver *)

Lemma foldl_gridCells {S} (g : S -> Z -> Z -> S) (st : S) (rs cs : list Z) :
  foldl (fun st r => foldl (fun st c => g st c r) st cs) st rs =
  foldl (fun st (cell : Z * Z) => g st cell.1 cell.2) st
    (r ← rs; c ← cs; [(c, r)]).
Proof.
  revert st. induction rs as [|r rs IH]; intros st; [done|].
  rewrite bind_cons, foldl_app. simpl. rewrite IH. f_equal.
  clear IH. revert st. induction cs as [|c cs IHc]; intros st; [done|].
  rewrite bind_cons. simpl. by rewrite IHc.
Qed.

Lemma insertCols_lookup {V} (v : V) (m : gmap (Z * Z) V) r cs c0 r0 :
  is_Some (foldl (fun m c => <[(c, r) := v]> m) m cs !! (c0, r0)) <->
  is_Some (m !! (c0, r0)) \/ (r0 = r /\ c0 ∈ cs).
Proof.
  revert m. induction cs as [|c cs IH]; intros m; simpl.
  - rewrite elem_of_nil. tauto.
  - rewrite IH, elem_of_cons, lookup_insert_is_Some.
    split; [intros [[[= -> ->]|[_ ?]]|[? ?]]|intros [?|[-> [->|?]]]]; try tauto.
    destruct (decide ((c, r) = (c0, r0))); tauto.
Qed.

Lemma insertRect_lookup {V} (v : V) (m : gmap (Z * Z) V) rs cs c0 r0 :
  is_Some (foldl (fun m r => foldl (fun m c => <[(c, r) := v]> m) m cs) m rs
             !! (c0, r0)) <->
  is_Some (m !! (c0, r0)) \/ (r0 ∈ rs /\ c0 ∈ cs).
Proof.
  revert m. induction rs as [|r rs IH]; intros m; simpl.
  - rewrite elem_of_nil. tauto.
  - rewrite IH, insertCols_lookup, elem_of_cons. split.
    + intros [[?|[-> ?]]|[? ?]]; tauto.
    + intros [?|[[->|?] ?]]; tauto.
Qed.

Lemma placementMap_lookup ps slotsToRender c r :
  is_Some (placementMap ps slotsToRender !! (c, r)) <->
  exists p, p ∈ ps /\ is_Some (findSlot slotsToRender (pl_slot p)) /\
            covers p c r = true.
Proof.
  unfold placementMap.
  assert (forall m : gmap (Z * Z) (Placement * Slot),
    is_Some (foldl (fun map p =>
      match findSlot slotsToRender (pl_slot p) with
      | None => map
      | Some s =>
          foldl (fun map r =>
            foldl (fun map c => <[(c, r) := (p, s)]> map)
                  map (seqZ (pl_col p) (pl_w p)))
            map (seqZ (pl_row p) (pl_h p))
      end) m ps !! (c, r)) <->
    is_Some (m !! (c, r)) \/
    exists p, p ∈ ps /\ is_Some (findSlot slotsToRender (pl_slot p)) /\
              covers p c r = true) as Hgen.
  { induction ps as [|p ps IH]; intros m; simpl.
    - split; [by left|]. intros [?|(p & []%elem_of_nil & _)]; done.
    - rewrite IH. clear IH.
      assert (is_Some (match findSlot slotsToRender (pl_slot p) with
        | None => m
        | Some s =>
            foldl (fun map r =>
              foldl (fun map c => <[(c, r) := (p, s)]> map)
                    map (seqZ (pl_col p) (pl_w p)))
              m (seqZ (pl_row p) (pl_h p))
        end !! (c, r)) <->
        is_Some (m !! (c, r)) \/
        (is_Some (findSlot slotsToRender (pl_slot p)) /\ covers p c r = true))
        as ->.
      { destruct (findSlot slotsToRender (pl_slot p)) as [s|].
        - rewrite insertRect_lookup, !elem_of_seqZ. unfold covers.
          rewrite inRect_true. split; [intros [?|?]|intros [?|[_ ?]]];
            try tauto; right; (split; [by eexists|lia]) || lia.
        - split; [by left|]. by intros [?|[[? [=]] _]]. }
      split.
      + intros [[?|[? ?]]|(q & ? & ? & ?)]; [by left| |].
        * right. exists p. split; [by left|done].
        * right. exists q. split; [by right|done].
      + intros [?|(q & [->|?]%elem_of_cons & ? & ?)]; [tauto|tauto|].
        right. by exists q. }
  rewrite Hgen, lookup_empty. split; [intros [[? [=]]|?]; done|by right].
Qed.

Lemma findSlot_is_Some slotsToRender s :
  s ∈ slotsToRender -> is_Some (findSlot slotsToRender (slot s)).
Proof.
  intros Hs. unfold findSlot.
  destruct (List.find _ _) as [s'|] eqn:E; [by eexists|].
  apply list_elem_of_In in Hs.
  pose proof (List.find_none _ _ E s Hs) as Hf. simpl in Hf.
  by rewrite Z.eqb_refl in Hf.
Qed.

Lemma assignCells_spec (pm : gmap (Z * Z) (Placement * Slot))
    (P : Z * Z -> Prop) `{!forall cell, Decision (P cell)}
    (emptySlots : list Slot) (cells : list (Z * Z)) result emptyIdx :
  (forall c r, pm !! (c, r) = None <-> P (c, r)) ->
  fst (foldl (fun (st : list EmptyCell * nat) (cell : Z * Z) =>
    let (result, emptyIdx) := st in
    match pm !! (cell.1, cell.2) with
    | Some _ => (result, emptyIdx)
    | None =>
        match emptySlots !! emptyIdx with
        | Some realSlot =>
            (result ++ [mkEmptyCell cell.1 cell.2 realSlot], S emptyIdx)
        | None => (result, emptyIdx)
        end
    end) (result, emptyIdx) cells) =
  result ++ zip_with (fun cell s => mkEmptyCell cell.1 cell.2 s)
              (filter P cells) (drop emptyIdx emptySlots).
Proof.
  intros Hpm. revert result emptyIdx.
  induction cells as [|[c r] cells IH]; intros result emptyIdx; simpl.
  - by rewrite app_nil_r.
  - destruct (pm !! (c, r)) as [v|] eqn:E.
    + rewrite IH, filter_cons_False; [done|]. rewrite <- Hpm. by rewrite E.
    + rewrite filter_cons_True by (by apply Hpm).
      destruct (emptySlots !! emptyIdx) as [realSlot|] eqn:Eidx.
      * rewrite IH, (drop_S _ _ _ Eidx). simpl. by rewrite <- app_assoc.
      * rewrite IH. apply lookup_ge_None_1 in Eidx.
        rewrite drop_ge by done. by rewrite !zip_with_nil_r.
Qed.

(** * The claims of the specification *)

Section Claims.
Context `{ItemFootprint}.

(** C1 (as amended).  A placement chosen by the search overlaps no placement
    recorded before it: for two placements of one result, the later of which
    belongs to a slot without a fixed position, the rectangles
    [col, col+w) x [row, row+h) share no cell.  Placements taken from fixed
    positions are recorded unchecked and are not covered. *)
Theorem packItems_searched_no_overlap fuel slots cols res i j s p q :
  packItems fuel slots cols = Returns res ->
  (i < j)%nat ->
  slots !! j = Some s -> isFixed s = false ->
  placements res !! i = Some p -> placements res !! j = Some q ->
  ~ overlap p q.
Proof.
  intros (_ & _ & Hall)%packItems_Returns Hij Hs Hfree Hp Hq.
  destruct (Hall j s Hs) as (q' & Hq' & Hplaced). simplify_eq.
  apply (firstFree_no_overlap cols (take j (placements res))).
  - by apply (placedAs_search _ _ s).
  - apply elem_of_take. eauto.
Qed.

(** A slot without a fixed position gets its footprint and the first free
    rectangle of that size, given the placements of the slots before it. *)
Lemma packItems_first_free fuel slots cols res i s p :
  packItems fuel slots cols = Returns res ->
  slots !! i = Some s -> isFixed s = false ->
  placements res !! i = Some p ->
  pl_w p = getItemWidth s /\ pl_h p = getItemHeight s /\
  firstFree cols (take i (placements res)) p.
Proof.
  intros (_ & _ & Hall)%packItems_Returns Hs Hfree Hp.
  destruct (Hall i s Hs) as (p' & Hp' & Hplaced). simplify_eq.
  pose proof (placedAs_search _ _ _ _ Hplaced Hfree).
  by destruct Hplaced as (_ & ? & ? & _).
Qed.

(** C3.  A slot that carries a fixed position (x, y) is recorded at exactly
    (x, y) with its own footprint, whatever was placed before it; and its
    loop body runs no search: it does the same with no fuel at all. *)
Theorem packItems_fixed_position fuel slots cols res i s x y :
  packItems fuel slots cols = Returns res ->
  slots !! i = Some s -> gridX s = Some x -> gridY s = Some y ->
  placements res !! i =
    Some (mkPlacement (slot s) x y (getItemWidth s) (getItemHeight s)) /\
  forall occ, placeSlot fuel cols s occ = placeSlot 0 cols s occ.
Proof.
  intros (_ & _ & Hall)%packItems_Returns Hs Hx Hy.
  destruct (Hall i s Hs) as (p & Hp & Hplaced). split.
  - by rewrite Hp, (placedAs_fixed _ _ _ _ x y Hplaced).
  - intros occ. unfold placeSlot. by rewrite Hx, Hy.
Qed.

(** C5.  The row count returned is max(4, max over the placements of
    row + h), the inner maximum being 0 when there is no placement; hence it
    is at least 4. *)
Theorem packItems_rows fuel slots cols res :
  packItems fuel slots cols = Returns res ->
  rows res = Z.max 4 (maxExtent (placements res)) /\ 4 <= rows res.
Proof.
  intros (-> & _)%packItems_Returns. split; [|lia].
  destruct (placements res) as [|p ps] eqn:E; [done|].
  unfold maxRowOf. rewrite fold_left_maxExtent by done. lia.
Qed.

(** C2.  A slot without a fixed position is placed at the first free
    rectangle of its size in row-major scan order, given the occupancy left
    by the slots processed before it: its (row, col) is the least (r, c), in
    lexicographic order, with 0 <= r and 0 <= c <= cols - w such that all
    cells of the w x h rectangle at (c, r) are unoccupied.  The search does
    find it: when cols > 0, every slot that is searched for has a footprint
    width of at most cols and no fixed position is on a negative row, the
    run returns, for every bound on the search from some bound on, a result
    in which every such slot sits there; and whenever a run returns, on any
    input, every such slot sits there.  With 10 columns and the slots 1x1,
    1x1, 2x2, 1x1 the placements are (0,0), (1,0), the 2x2 one at (2,0),
    and (4,0). *)
Theorem packItems_first_fit :
  (forall slots cols,
     0 < cols ->
     Forall (fun s => isFixed s = false -> getItemWidth s <= cols) slots ->
     Forall fixedRowNonneg slots ->
     exists fuel0 res,
       (forall fuel, (fuel0 <= fuel)%nat ->
          packItems fuel slots cols = Returns res) /\
       forall i s, slots !! i = Some s -> isFixed s = false ->
         exists p, placements res !! i = Some p /\
           let earlier := take i (placements res) in
           pl_w p = getItemWidth s /\ pl_h p = getItemHeight s /\
           0 <= pl_row p /\ 0 <= pl_col p <= cols - pl_w p /\
           freeRect earlier (pl_col p) (pl_row p) (pl_w p) (pl_h p) /\
           forall r c, 0 <= r -> 0 <= c <= cols - pl_w p ->
             freeRect earlier c r (pl_w p) (pl_h p) ->
             lexLe (pl_row p) (pl_col p) r c) /\
  (forall fuel slots cols res i s p,
     packItems fuel slots cols = Returns res ->
     slots !! i = Some s -> isFixed s = false ->
     placements res !! i = Some p ->
     let earlier := take i (placements res) in
     pl_w p = getItemWidth s /\ pl_h p = getItemHeight s /\
     0 <= pl_row p /\ 0 <= pl_col p <= cols - pl_w p /\
     freeRect earlier (pl_col p) (pl_row p) (pl_w p) (pl_h p) /\
     forall r c, 0 <= r -> 0 <= c <= cols - pl_w p ->
       freeRect earlier c r (pl_w p) (pl_h p) ->
       lexLe (pl_row p) (pl_col p) r c) /\
  (forall fuel, (1 <= fuel)%nat ->
     @packItems scenarioFootprint fuel
       [item 1 "water"; item 2 "bread"; item 3 "rifle"; item 4 "phone"] 10 =
     Returns (mkPackResult
       [mkPlacement 1 0 0 1 1; mkPlacement 2 1 0 1 1;
        mkPlacement 3 2 0 2 2; mkPlacement 4 4 0 1 1] 4)).
Proof.
  assert (forall fuel slots cols res i s p,
    packItems fuel slots cols = Returns res ->
    slots !! i = Some s -> isFixed s = false ->
    placements res !! i = Some p ->
    pl_w p = getItemWidth s /\ pl_h p = getItemHeight s /\
    0 <= pl_row p /\ 0 <= pl_col p <= cols - pl_w p /\
    freeRect (take i (placements res)) (pl_col p) (pl_row p) (pl_w p) (pl_h p) /\
    forall r c, 0 <= r -> 0 <= c <= cols - pl_w p ->
      freeRect (take i (placements res)) c r (pl_w p) (pl_h p) ->
      lexLe (pl_row p) (pl_col p) r c) as Hpartial.
  { intros fuel slots cols res i s p Hrun Hs Hfree Hp.
    destruct (packItems_first_free _ _ _ _ _ _ _ Hrun Hs Hfree Hp)
      as (Hw & Hh & Hfirst).
    split; [done|]. split; [done|]. exact Hfirst. }
  split; [|split].
  - intros slots cols Hcols Hw Hfixed.
    destruct (packLoop_total_searched cols slots [] [])
      as (fuel0 & ps & occ' & Hrun); [lia|done|done|].
    assert (packItems fuel0 slots cols =
            Returns (mkPackResult ps (Z.max (maxRowOf ps) 4))) as Hres
      by (unfold packItems; by rewrite Hrun).
    eexists fuel0, _. split; [intros fuel Hle; by apply (packItems_mono fuel0)|].
    intros i s Hs Hfree.
    destruct (packItems_Returns _ _ _ _ Hres) as (_ & _ & Hall).
    destruct (Hall i s Hs) as (p & Hp & _). exists p. split; [done|].
    by apply (Hpartial fuel0 slots cols _ i s p).
  - intros fuel slots cols res i s p Hrun Hs Hfree Hp earlier.
    by apply (Hpartial fuel slots cols res i s p).
  - intros fuel Hfuel. by apply (packItems_mono 1).
Qed.

(** C4 (as amended).  With cols > 0, every footprint width at most cols and
    no fixed position on a negative row, packItems terminates and returns
    (for every bound on the search from some bound on, with the same
    result) exactly one placement per slot, the i-th placement carrying the
    slot number of the i-th slot. *)
Theorem packItems_returns_one_per_slot slots cols :
  0 < cols ->
  Forall (fun s => getItemWidth s <= cols) slots ->
  Forall fixedRowNonneg slots ->
  exists fuel0 res,
    (forall fuel, (fuel0 <= fuel)%nat -> packItems fuel slots cols = Returns res) /\
    length (placements res) = length slots /\
    pl_slot <$> placements res = slot <$> slots.
Proof.
  intros Hcols Hw Hfixed.
  destruct (packLoop_total cols slots [] []) as (fuel0 & ps & occ' & Hrun);
    [lia|done|done|].
  assert (packItems fuel0 slots cols =
          Returns (mkPackResult ps (Z.max (maxRowOf ps) 4))) as Hres
    by (unfold packItems; by rewrite Hrun).
  eexists fuel0, _. split; [intros fuel Hle; by apply (packItems_mono fuel0)|].
  apply packItems_Returns in Hres as (_ & Hlen & Hall). simpl in *.
  split; [done|]. apply list_eq. intros i. rewrite !list_lookup_fmap.
  destruct (slots !! i) as [s|] eqn:Hs.
  - destruct (Hall i s Hs) as (p & -> & Hslot & _). simpl. by rewrite Hslot.
  - rewrite (lookup_ge_None_2 ps); [done|].
    apply lookup_ge_None_1 in Hs. lia.
Qed.

(** C8.  packItems is deterministic: two runs on slot lists that agree, slot
    by slot, on slot number, footprint and fixed coordinates, with the same
    column count, return the same placements and the same row count,
    whatever bound each run puts on the search. *)
Theorem packItems_deterministic fuel1 fuel2 slots1 slots2 cols res1 res2 :
  Forall2 sameInput slots1 slots2 ->
  packItems fuel1 slots1 cols = Returns res1 ->
  packItems fuel2 slots2 cols = Returns res2 ->
  res1 = res2.
Proof.
  intros Hsame Hrun1 Hrun2.
  apply (packItems_mono _ (Nat.max fuel1 fuel2)) in Hrun1; [|lia].
  apply (packItems_mono _ (Nat.max fuel1 fuel2)) in Hrun2; [|lia].
  rewrite (packItems_ext _ _ slots1 slots2) in Hrun1; [congruence|].
  eapply Forall2_impl; [exact Hsame|].
  intros s1 s2 Hs g. by apply placeSlot_ext.
Qed.

(** C9 (as amended).  A placement found by the search lies within the grid
    horizontally, 0 <= col and col + w <= cols.  A placement taken from a
    fixed position is recorded at the given column with the footprint of the
    slot, unvalidated, so it lies within the grid horizontally exactly when
    0 <= gridX and gridX + w <= cols. *)
Theorem packItems_within_columns fuel slots cols res i s p :
  packItems fuel slots cols = Returns res ->
  slots !! i = Some s -> placements res !! i = Some p ->
  (isFixed s = false -> 0 <= pl_col p /\ pl_col p + pl_w p <= cols) /\
  (forall x y, gridX s = Some x -> gridY s = Some y ->
     pl_col p = x /\ pl_w p = getItemWidth s /\
     (0 <= pl_col p /\ pl_col p + pl_w p <= cols <->
      0 <= x /\ x + getItemWidth s <= cols)).
Proof.
  intros (_ & _ & Hall)%packItems_Returns Hs Hp.
  destruct (Hall i s Hs) as (p' & Hp' & Hplaced). simplify_eq. split.
  - intros Hfix.
    destruct (placedAs_search _ _ _ _ Hplaced Hfix) as (_ & Hcol & _). lia.
  - intros x y Hx Hy.
    rewrite (placedAs_fixed _ _ _ _ x y Hplaced Hx Hy). simpl. tauto.
Qed.


(** C6.  When every slot has the 1x1 footprint and no fixed position, the
    i-th slot (from 0, in input order) is placed at col = i mod cols,
    row = i div cols: the placements fill the rows in row-major order
    without gaps. *)
Theorem packItems_unit_row_major slots cols :
  0 < cols ->
  Forall (fun s => getItemWidth s = 1 /\ getItemHeight s = 1 /\ isFixed s = false)
    slots ->
  exists fuel0 res,
    (forall fuel, (fuel0 <= fuel)%nat -> packItems fuel slots cols = Returns res) /\
    placements res =
      imap (fun i s => mkPlacement (slot s) (Z.of_nat i mod cols)
                         (Z.of_nat i / cols) 1 1) slots.
Proof.
  intros Hcols Hunit.
  destruct (packLoop_total cols slots [] []) as (fuel0 & ps & occ' & Hrun); [lia| | |].
  { eapply Forall_impl; [exact Hunit|]. intros s (-> & _). lia. }
  { eapply Forall_impl; [exact Hunit|]. intros s (_ & _ & Hfix) x y Hx Hy.
    unfold isFixed in Hfix. by rewrite Hx, Hy in Hfix. }
  assert (packItems fuel0 slots cols =
          Returns (mkPackResult ps (Z.max (maxRowOf ps) 4))) as Hres
    by (unfold packItems; by rewrite Hrun).
  eexists fuel0, _. split; [intros fuel Hle; by apply (packItems_mono fuel0)|].
  apply packItems_Returns in Hres as (_ & Hlen & Hall). simpl in *.
  assert (forall i s, slots !! i = Some s ->
    ps !! i = Some (mkPlacement (slot s) (Z.of_nat i mod cols)
                      (Z.of_nat i / cols) 1 1)) as Hcell.
  { intros i. induction (lt_wf i) as [i _ IH]. intros s Hs.
    destruct (Hall i s Hs) as (p & Hp & Hplaced). rewrite Hp. f_equal.
    rewrite Forall_lookup in Hunit.
    destruct (Hunit i s Hs) as (Hw & Hh & Hfix).
    pose proof (placedAs_search _ _ _ _ Hplaced Hfix) as Hfirst.
    destruct Hplaced as (Hslot & Hpw & Hph & _). rewrite Hw in Hpw. rewrite Hh in Hph.
    destruct (firstFree_unit_cell cols (take i ps) p (Z.of_nat i))
      as [Hc Hr]; [done|lia|done|done|done| |].
    - intros c r. rewrite coveredBy_true. split.
      + intros (q & (k & Hq & Hk)%elem_of_take & Hcov).
        destruct (lookup_lt_is_Some_2 slots k) as [sk Hsk];
          [apply lookup_lt_Some in Hs; lia|].
        rewrite (IH k Hk sk Hsk) in Hq. simplify_eq.
        apply inRect_true in Hcov. simpl in Hcov.
        exists (Z.of_nat k). lia.
      + intros (j & Hj & -> & ->).
        destruct (lookup_lt_is_Some_2 slots (Z.to_nat j)) as [sj Hsj];
          [apply lookup_lt_Some in Hs; lia|].
        eexists. split.
        * apply elem_of_take. exists (Z.to_nat j). split; [|lia].
          apply (IH (Z.to_nat j)); [lia|exact Hsj].
        * apply inRect_true. simpl. rewrite Z2Nat.id by lia. lia.
    - destruct p; simpl in *; by subst. }
  apply list_eq. intros i. rewrite list_lookup_imap.
  destruct (slots !! i) as [s|] eqn:Hs; simpl.
  - by apply Hcell.
  - apply lookup_ge_None_2. apply lookup_ge_None_1 in Hs. lia.
Qed.

(** C7.  The grid cells covered by no placement are taken in row-major
    scan order over the rows x GRID_COLS grid and paired, one by one, with
    the slots that hold no item, in their original relative order; the
    cells left when the empty slots run out get no entry.  So the number of
    entries is the smaller of the two counts: with 2 empty slots and 6
    uncovered cells, exactly 2. *)
Theorem emptyCellSlots_row_major fuel slotsToRender res :
  packItems fuel slotsToRender GRID_COLS = Returns res ->
  let uncovered :=
    filter (fun cell : Z * Z => coveredBy (placements res) cell.1 cell.2 = false)
      (gridCells (rows res) GRID_COLS) in
  let emptySlots := filter (fun s => name s = None) slotsToRender in
  let cells := emptyCellSlots slotsToRender (rows res)
                 (placementMap (placements res) slotsToRender) in
  cells = zip_with (fun cell s => mkEmptyCell cell.1 cell.2 s) uncovered emptySlots /\
  length cells = Nat.min (length uncovered) (length emptySlots).
Proof.
  intros (_ & Hlen & Hall)%packItems_Returns uncovered emptySlots cells.
  assert (cells = zip_with (fun cell s => mkEmptyCell cell.1 cell.2 s)
                    uncovered emptySlots) as ->; [|by rewrite length_zip_with].
  unfold cells, emptyCellSlots.
  rewrite (foldl_gridCells (fun (st : list EmptyCell * nat) c r =>
    let (result, emptyIdx) := st in
    match placementMap (placements res) slotsToRender !! (c, r) with
    | Some _ => (result, emptyIdx)
    | None =>
        match filter (fun s => name s = None) slotsToRender !! emptyIdx with
        | Some realSlot => (result ++ [mkEmptyCell c r realSlot], S emptyIdx)
        | None => (result, emptyIdx)
        end
    end)).
  rewrite (assignCells_spec _
    (fun cell : Z * Z => coveredBy (placements res) cell.1 cell.2 = false)).
  { done. }
  intros c r. simpl. rewrite eq_None_not_Some, placementMap_lookup.
  rewrite <- not_true_iff_false, coveredBy_true. split.
  - intros Hno (p & Hp & Hc). apply Hno. exists p.
    split; [done|]. split; [|done].
    apply list_elem_of_lookup in Hp as [i Hp].
    destruct (lookup_lt_is_Some_2 slotsToRender i) as [s Hs].
    { apply lookup_lt_Some in Hp. lia. }
    destruct (Hall i s Hs) as (p' & Hp' & Hslot & _). simplify_eq.
    rewrite Hslot. apply findSlot_is_Some. by eapply list_elem_of_lookup_2.
  - intros Hno (p & Hp & _ & Hc). apply Hno. by exists p.
Qed.

End Claims.

(** * Further properties of the code *)

(** ** The occupancy matrix *)

Lemma ensureRows_loop_exact n cols m occ :
  0 <= cols -> n = Z.to_nat (m + 1 - Z.of_nat (length occ)) ->
  ensureRows_loop n cols m occ =
    Returns (tt, occ ++ replicate n (filledFalse cols)).
Proof.
  intros Hcols. revert occ. induction n as [|n IH]; intros occ Hn; simpl.
  - destruct (Z.leb_spec (Z.of_nat (length occ)) m); [lia|]. by rewrite app_nil_r.
  - destruct (Z.leb_spec (Z.of_nat (length occ)) m); [|lia].
    unfold newArrayFill. destruct (Z.ltb_spec cols 0); [lia|].
    rewrite IH; [by rewrite <- app_assoc|]. rewrite length_app. simpl. lia.
Qed.

Lemma ensureRows_enough cols maxRow occ :
  maxRow < Z.of_nat (length occ) -> ensureRows cols maxRow occ = Returns (tt, occ).
Proof.
  intros Hlt. unfold ensureRows.
  replace (Z.to_nat (maxRow + 1 - Z.of_nat (length occ))) with O by lia.
  simpl. by destruct (Z.leb_spec (Z.of_nat (length occ)) maxRow); [lia|].
Qed.

(** X1.  ensureRows only appends: with enough rows it changes nothing,
    whatever cols is; otherwise it appends exactly the missing rows, all
    unoccupied, so that the length becomes maxRow + 1; and when rows are
    missing and cols is negative, creating the row throws a RangeError. *)
Theorem ensureRows_cases cols maxRow occ :
  (maxRow < Z.of_nat (length occ) ->
     ensureRows cols maxRow occ = Returns (tt, occ)) /\
  (Z.of_nat (length occ) <= maxRow -> 0 <= cols ->
     exists occ',
       ensureRows cols maxRow occ = Returns (tt, occ') /\
       occ' = occ ++ replicate (Z.to_nat (maxRow + 1 - Z.of_nat (length occ)))
                       (filledFalse cols) /\
       Z.of_nat (length occ') = maxRow + 1 /\
       forall c r, Z.of_nat (length occ) <= r -> occAt occ' c r = false) /\
  (Z.of_nat (length occ) <= maxRow -> cols < 0 ->
     ensureRows cols maxRow occ = Throws RangeError).
Proof.
  split; [|split].
  - apply ensureRows_enough.
  - intros Hle Hcols. eexists. split; [by apply ensureRows_loop_exact|].
    split; [done|]. split.
    + rewrite length_app, length_replicate. lia.
    + intros c r Hr. rewrite occAt_push. by apply occAt_beyond.
  - intros Hle Hcols. unfold ensureRows.
    destruct (Z.to_nat (maxRow + 1 - Z.of_nat (length occ))) as [|n] eqn:E; [lia|].
    simpl. destruct (Z.leb_spec (Z.of_nat (length occ)) maxRow); [|lia].
    unfold newArrayFill. by destruct (Z.ltb_spec cols 0); [|lia].
Qed.

(** X2.  In a grid of at least 0 columns, markOccupied on a row that is not
    negative returns, and afterwards a cell reads as occupied exactly when
    it did before or lies in the rectangle: marks are added, never cleared. *)
Theorem markOccupied_marks_rectangle cols col row w h occ :
  0 <= cols -> 0 <= row ->
  exists occ',
    markOccupied cols col row w h occ = Returns (tt, occ') /\
    forall c r, occAt occ' c r = occAt occ c r || inRect col row w h c r.
Proof.
  intros Hcols Hrow.
  destruct (markOccupied_total cols col row w h occ Hcols Hrow) as [occ' Hrun].
  exists occ'. split; [done|]. by eapply markOccupied_Returns.
Qed.

(** X3.  markOccupied on a negative row with a footprint that is not empty
    throws a TypeError: no row is created for a negative index, and the
    first write goes through [occupied[row]], which is [undefined]. *)
Theorem markOccupied_negative_row cols col row w h occ :
  row < 0 -> 0 < w -> 0 < h ->
  markOccupied cols col row w h occ = Throws TypeError.
Proof.
  intros Hrow Hw Hh. unfold markOccupied, forRange.
  destruct (Z.to_nat (row + h - row)) as [|n] eqn:En; [lia|]. simpl.
  unfold mbind, M_bind. rewrite ensureRows_enough by lia.
  destruct (Z.to_nat (col + w - col)) as [|k] eqn:Ek; [lia|]. simpl.
  unfold mbind, M_bind, setCell, lookupRow.
  by destruct (Z.ltb_spec row 0); [|lia].
Qed.

(** X4.  In a grid of at least 0 columns that the footprint fits into
    (w <= cols), findFree returns within length(occupied) + 1 rows: the row
    it returns is at most the number of rows of the matrix, the rectangle it
    returns is unoccupied and inside the columns, and the search itself
    marks no cell. *)
Theorem findFree_bounded fuel cols w h occ :
  0 <= cols -> w <= cols -> (length occ < fuel)%nat ->
  exists c r occ',
    findFree fuel cols w h occ = Returns ((c, r), occ') /\
    0 <= r <= Z.of_nat (length occ) /\ 0 <= c <= cols - w /\
    rectClear occ c r w h /\
    forall c' r', occAt occ' c' r' = occAt occ c' r'.
Proof.
  intros Hcols Hw Hfuel.
  destruct (findFree_from_total fuel cols w h 0 occ (Z.of_nat (length occ)))
    as ([c r] & occ' & Hrun); [done|done|done| |lia|].
  { intros c r Hr. by apply occAt_beyond. }
  exists c, r, occ'. split; [done|].
  apply findFree_from_Returns in Hrun as (Hsame & Hr & Hc & Hclear & Hleast).
  split; [|done]. split; [done|].
  destruct (Hleast (Z.of_nat (length occ)) 0) as [Hlt|[Heq _]]; [lia|lia| |lia|lia].
  intros dc dr Hdc Hdr. apply occAt_beyond. lia.
Qed.

(** ** The loop of packItems, continued *)

Section Further.
Context `{ItemFootprint}.

Lemma packLoop_occupancy fuel cols slots acc occ ps occ' :
  (forall c r, occAt occ c r = coveredBy acc c r) ->
  packLoop fuel cols slots acc occ = Returns (ps, occ') ->
  forall c r, occAt occ' c r = coveredBy ps c r.
Proof.
  revert acc occ. induction slots as [|s rest IH]; intros acc occ Hinv; simpl.
  - by intros ?%ret_Returns; simplify_eq.
  - intros (p & g & Hplace & Hrest)%bind_Returns.
    destruct (placeSlot_Returns _ _ _ _ _ _ _ Hinv Hplace) as [_ Hinv1].
    by apply (IH _ _ Hinv1).
Qed.

Lemma packLoop_app fuel cols slots1 slots2 acc occ :
  packLoop fuel cols (slots1 ++ slots2) acc occ =
  (packLoop fuel cols slots1 acc ≫= fun ps => packLoop fuel cols slots2 ps) occ.
Proof.
  revert acc occ. induction slots1 as [|s rest IH]; intros acc occ; simpl; [done|].
  unfold mbind, M_bind.
  destruct (placeSlot fuel cols s occ) as [[p g]|e|]; [|done|done].
  apply IH.
Qed.

Lemma fold_max_ge ps m :
  m <= fold_left (fun m p => Z.max m (pl_row p + pl_h p)) ps m.
Proof.
  revert m. induction ps as [|p ps IH]; intros m; simpl; [lia|].
  specialize (IH (Z.max m (pl_row p + pl_h p))). lia.
Qed.

Lemma fold_max_elem ps m q :
  q ∈ ps ->
  pl_row q + pl_h q <= fold_left (fun m p => Z.max m (pl_row p + pl_h p)) ps m.
Proof.
  revert m. induction ps as [|p ps IH]; intros m Hq; simpl.
  - by apply elem_of_nil in Hq.
  - apply elem_of_cons in Hq as [->|Hq]; [|by apply IH].
    pose proof (fold_max_ge ps (Z.max m (pl_row p + pl_h p))). lia.
Qed.

Lemma packItems_covered_row fuel slots cols res c r :
  packItems fuel slots cols = Returns res ->
  coveredBy (placements res) c r = true -> 0 <= r.
Proof.
  unfold packItems.
  destruct (packLoop fuel cols slots [] []) as [[ps occ']|e|] eqn:Hrun; [|done|done].
  intros ? Hcov; simplify_eq. simpl in Hcov.
  rewrite <- (packLoop_occupancy _ _ _ [] _ _ _ occAt_nil Hrun) in Hcov.
  unfold occAt in Hcov. destruct (lookupRow occ' r) as [cells|] eqn:E; [|done].
  apply lookupRow_Some in E. lia.
Qed.

Lemma findSlot_first slotsToRender n s :
  findSlot slotsToRender n = Some s ->
  s ∈ slotsToRender /\ slot s = n.
Proof.
  unfold findSlot. intros [Hin Hn%Z.eqb_eq]%List.find_some.
  by rewrite list_elem_of_In.
Qed.

Lemma findSlot_NoDup slotsToRender i s :
  NoDup (slot <$> slotsToRender) -> slotsToRender !! i = Some s ->
  findSlot slotsToRender (slot s) = Some s.
Proof.
  unfold findSlot. revert i.
  induction slotsToRender as [|a l IH]; intros i Hnd Hs; [done|].
  rewrite fmap_cons in Hnd. apply NoDup_cons in Hnd as [Ha Hnd]. simpl.
  destruct i as [|i]; simpl in Hs.
  - simplify_eq. by rewrite Z.eqb_refl.
  - destruct (Z.eqb_spec (slot a) (slot s)) as [Heq|_]; [|by eapply IH].
    exfalso. apply Ha. rewrite Heq. apply list_elem_of_fmap_2.
    by eapply list_elem_of_lookup_2.
Qed.

(** X5.  When the loop of packItems is over, [occupied] reads as occupied
    exactly on the cells covered by the placements made: nothing else was
    marked and no mark was lost. *)
Theorem packLoop_final_occupancy fuel cols slots ps occ' c r :
  packLoop fuel cols slots [] [] = Returns (ps, occ') ->
  occAt occ' c r = true <-> exists p, p ∈ ps /\ covers p c r = true.
Proof.
  intros Hrun. rewrite <- coveredBy_true.
  by rewrite (packLoop_occupancy _ _ _ [] _ _ _ occAt_nil Hrun).
Qed.

(** X6.  Every cell covered by a returned placement lies on a row of the
    returned grid: 0 <= r < rows. *)
Theorem packItems_cells_within_rows fuel slots cols res p c r :
  packItems fuel slots cols = Returns res ->
  p ∈ placements res -> covers p c r = true ->
  0 <= r < rows res.
Proof.
  intros Hrun Hp Hcov. split.
  - apply (packItems_covered_row _ _ _ _ c r Hrun). apply coveredBy_true. eauto.
  - apply packItems_Returns in Hrun as (-> & _).
    apply inRect_true in Hcov.
    pose proof (fold_max_elem (placements res) 0 p Hp). unfold maxRowOf. lia.
Qed.

(** X7.  packItems returns only on input it can place: every slot that is
    searched for has a footprint width of at most cols, and every fixed
    slot with a footprint that is not empty has a row that is not negative. *)
Theorem packItems_returns_only_if fuel slots cols res i s :
  packItems fuel slots cols = Returns res ->
  slots !! i = Some s ->
  (isFixed s = false -> getItemWidth s <= cols) /\
  (forall x y, gridX s = Some x -> gridY s = Some y ->
     0 < getItemWidth s -> 0 < getItemHeight s -> 0 <= y).
Proof.
  intros Hrun Hs.
  pose proof (packItems_Returns _ _ _ _ Hrun) as (_ & _ & Hall).
  destruct (Hall i s Hs) as (p & Hp & Hplaced). split.
  - intros Hfree.
    destruct (placedAs_search _ _ _ _ Hplaced Hfree) as (_ & Hc & _).
    destruct Hplaced as (_ & <- & _). lia.
  - intros x y Hx Hy Hw Hh.
    rewrite (placedAs_fixed _ _ _ _ x y Hplaced Hx Hy) in Hp.
    apply (packItems_covered_row _ _ _ _ x y Hrun).
    apply coveredBy_true. eexists. split; [by eapply list_elem_of_lookup_2|].
    apply inRect_true. simpl. lia.
Qed.

(** X8.  The search leaves no free row behind: a slot that is searched for
    is placed on a row that is at most the largest row + h of the
    placements before it (0 when there is none). *)
Theorem packItems_search_row_bound fuel slots cols res i s p :
  packItems fuel slots cols = Returns res ->
  slots !! i = Some s -> isFixed s = false ->
  placements res !! i = Some p ->
  pl_row p <= maxRowOf (take i (placements res)).
Proof.
  intros (_ & _ & Hall)%packItems_Returns Hs Hfree Hp.
  destruct (Hall i s Hs) as (p' & Hp' & Hplaced). simplify_eq.
  destruct (placedAs_search _ _ _ _ Hplaced Hfree) as (_ & Hc & _ & Hleast).
  pose proof (fold_max_ge (take i (placements res)) 0) as Hm.
  fold (maxRowOf (take i (placements res))) in Hm.
  destruct (Hleast (maxRowOf (take i (placements res))) 0) as [Hlt|[Heq _]];
    [done|lia| |lia|lia].
  intros dc dr Hdc Hdr. apply coveredBy_false. intros q Hq.
  apply inRect_false. intros [_ Hr].
  pose proof (fold_max_elem _ 0 q Hq) as Hq'.
  fold (maxRowOf (take i (placements res))) in Hq'. lia.
Qed.

(** X9.  Slots appended to the list do not move the earlier ones: when
    packItems returns on slots1 ++ slots2 it returns on slots1 too, with the
    first placements of the longer run, and with no more rows. *)
Theorem packItems_prefix_stable fuel slots1 slots2 cols res :
  packItems fuel (slots1 ++ slots2) cols = Returns res ->
  exists res1,
    packItems fuel slots1 cols = Returns res1 /\
    placements res1 = take (length slots1) (placements res) /\
    rows res1 <= rows res.
Proof.
  unfold packItems. rewrite packLoop_app.
  destruct ((packLoop fuel cols slots1 [] ≫= _) []) as [[ps occ']|e|] eqn:Hrun;
    [|done|done].
  intros ?; simplify_eq.
  apply bind_Returns in Hrun as (ps1 & g & Hrun1 & Hrun2). rewrite Hrun1.
  eexists. split; [done|]. simpl.
  pose proof (packLoop_occupancy _ _ _ [] _ _ _ occAt_nil Hrun1) as Hinv.
  apply packLoop_Returns in Hrun1 as (new1 & -> & Hlen1 & _); [|apply occAt_nil].
  apply packLoop_Returns in Hrun2 as (new2 & -> & _ & _); [|done].
  simpl in *. split.
  - by rewrite <- Hlen1, take_app_length.
  - unfold maxRowOf. rewrite fold_left_app.
    pose proof (fold_max_ge new2
      (fold_left (fun m p => Z.max m (pl_row p + pl_h p)) new1 0)). lia.
Qed.

(** X10.  Every placement of a run is rendered (never [null]) with the first
    slot of the list that has its slot number, in the box of the placement;
    when the slot numbers are distinct this is the slot the placement was
    made for. *)
Theorem renderedItems_own_slot fuel slots cols res i s :
  packItems fuel slots cols = Returns res ->
  slots !! i = Some s ->
  exists p s',
    placements res !! i = Some p /\
    renderedItems slots (placements res) !! i = Some (Some (s', itemBox p)) /\
    s' ∈ slots /\ slot s' = slot s /\
    (NoDup (slot <$> slots) -> s' = s).
Proof.
  intros (_ & _ & Hall)%packItems_Returns Hs.
  destruct (Hall i s Hs) as (p & Hp & Hslot & _).
  destruct (findSlot_is_Some slots s) as [s' Hfind];
    [by eapply list_elem_of_lookup_2|].
  exists p, s'. split; [done|].
  unfold renderedItems. rewrite list_lookup_fmap, Hp. simpl.
  rewrite Hslot, Hfind. split; [done|].
  destruct (findSlot_first _ _ _ Hfind) as [Hin Hnum].
  split; [done|]. split; [done|].
  intros Hnd. rewrite (findSlot_NoDup _ _ _ Hnd Hs) in Hfind. by simplify_eq.
Qed.

End Further.

(** ** The cell maps of the component *)

Lemma insertCols_value {V} (v : V) (m : gmap (Z * Z) V) r cs c0 r0 :
  foldl (fun m c => <[(c, r) := v]> m) m cs !! (c0, r0) =
  if decide (r0 = r /\ c0 ∈ cs) then Some v else m !! (c0, r0).
Proof.
  revert m. induction cs as [|c cs IH]; intros m; cbn [foldl].
  - rewrite decide_False; [done|]. by intros [_ []%elem_of_nil].
  - rewrite IH. destruct (decide (r0 = r /\ c0 ∈ cs)) as [[-> Hin]|Hn].
    + rewrite decide_True; [done|]. split; [done|by right].
    + destruct (decide ((c, r) = (c0, r0))) as [[= -> ->]|Hne].
      * rewrite lookup_insert_eq, decide_True; [done|]. split; [done|by left].
      * rewrite lookup_insert_ne by done. rewrite decide_False; [done|].
        intros [-> [->|Hin]%elem_of_cons]; [by apply Hne|by apply Hn].
Qed.

Lemma insertRect_value {V} (v : V) (m : gmap (Z * Z) V) rs cs c0 r0 :
  foldl (fun m r => foldl (fun m c => <[(c, r) := v]> m) m cs) m rs !! (c0, r0) =
  if decide (r0 ∈ rs /\ c0 ∈ cs) then Some v else m !! (c0, r0).
Proof.
  revert m. induction rs as [|r rs IH]; intros m; cbn [foldl].
  - rewrite decide_False; [done|]. by intros [[]%elem_of_nil _].
  - rewrite IH, insertCols_value.
    destruct (decide (r0 ∈ rs /\ c0 ∈ cs)) as [[Hr Hc]|Hn1].
    { rewrite decide_True; [done|]. split; [by right|done]. }
    destruct (decide (r0 = r /\ c0 ∈ cs)) as [[-> Hc]|Hn2].
    { rewrite decide_True; [done|]. split; [by left|done]. }
    rewrite decide_False; [done|].
    intros [[->|Hr]%elem_of_cons Hc]; [by apply Hn2|by apply Hn1].
Qed.

Lemma placementMap_from (slotsToRender : list Slot) (ps : list Placement)
    (m : gmap (Z * Z) (Placement * Slot)) (c r : Z) :
  foldl (fun map p =>
    match findSlot slotsToRender (pl_slot p) with
    | None => map
    | Some s =>
        foldl (fun map r =>
          foldl (fun map c => <[(c, r) := (p, s)]> map)
                map (seqZ (pl_col p) (pl_w p)))
          map (seqZ (pl_row p) (pl_h p))
    end) m ps !! (c, r) =
  match last (cellEntries slotsToRender ps c r) with
  | Some v => Some v
  | None => m !! (c, r)
  end.
Proof.
  revert m. induction ps as [|p ps IH]; intros m; [done|].
  simpl. rewrite IH. clear IH. unfold cellEntries. simpl.
  assert (covers p c r = true <->
          r ∈ seqZ (pl_row p) (pl_h p) /\ c ∈ seqZ (pl_col p) (pl_w p)) as Hcov.
  { unfold covers. rewrite inRect_true, !elem_of_seqZ. lia. }
  destruct (findSlot slotsToRender (pl_slot p)) as [s|]; simpl.
  - rewrite insertRect_value.
    destruct (covers p c r) eqn:E; simpl.
    + rewrite decide_True by (by apply Hcov). rewrite last_cons.
      by destruct (last _).
    + rewrite decide_False; [done|]. rewrite <- Hcov. congruence.
  - by destruct (covers p c r).
Qed.

Lemma emptyCellSlots_zip (slotsToRender : list Slot) (rows : Z)
    (pm : gmap (Z * Z) (Placement * Slot)) :
  emptyCellSlots slotsToRender rows pm =
  zip_with (fun cell s => mkEmptyCell cell.1 cell.2 s)
    (filter (fun cell : Z * Z => pm !! cell = None) (gridCells rows GRID_COLS))
    (filter (fun s => name s = None) slotsToRender).
Proof.
  unfold emptyCellSlots.
  rewrite (foldl_gridCells (fun (st : list EmptyCell * nat) c r =>
    let (result, emptyIdx) := st in
    match pm !! (c, r) with
    | Some _ => (result, emptyIdx)
    | None =>
        match filter (fun s => name s = None) slotsToRender !! emptyIdx with
        | Some realSlot => (result ++ [mkEmptyCell c r realSlot], S emptyIdx)
        | None => (result, emptyIdx)
        end
    end)).
  by rewrite (assignCells_spec pm (fun cell : Z * Z => pm !! cell = None)).
Qed.

Lemma elem_of_gridCells rows cols c r :
  (c, r) ∈ gridCells rows cols <-> 0 <= r < rows /\ 0 <= c < cols.
Proof.
  unfold gridCells. rewrite list_elem_of_bind. split.
  - intros (r' & (c' & Hcell%list_elem_of_singleton & Hc%elem_of_seqZ)%list_elem_of_bind
              & Hr%elem_of_seqZ).
    simplify_eq. lia.
  - intros [Hr Hc]. exists r. split; [|apply elem_of_seqZ; lia].
    apply list_elem_of_bind. exists c.
    split; [by apply list_elem_of_singleton|apply elem_of_seqZ; lia].
Qed.

Lemma NoDup_gridCells rows cols : NoDup (gridCells rows cols).
Proof.
  unfold gridCells. apply NoDup_bind; [| |apply NoDup_seqZ].
  - intros r1 r2 cell _ _
      (c1 & ->%list_elem_of_singleton & _)%list_elem_of_bind
      (c2 & [= _ ->]%list_elem_of_singleton & _)%list_elem_of_bind.
    done.
  - intros r _. apply NoDup_bind; [| |apply NoDup_seqZ].
    + by intros c1 c2 cell _ _ ->%list_elem_of_singleton
        [= ->]%list_elem_of_singleton.
    + intros c _. apply NoDup_singleton.
Qed.

Lemma zip_cells_slots (cells : list (Z * Z)) (ss : list Slot) :
  ec_slot <$> zip_with (fun cell s => mkEmptyCell cell.1 cell.2 s) cells ss =
    take (length cells) ss /\
  (fun e => (ec_col e, ec_row e)) <$>
    zip_with (fun cell s => mkEmptyCell cell.1 cell.2 s) cells ss =
    take (length ss) cells.
Proof.
  revert ss. induction cells as [|[c r] cells IH]; intros ss; simpl.
  - by rewrite take_nil.
  - destruct ss as [|s ss]; [done|].
    destruct (IH ss) as [IH1 IH2].
    split; simpl; f_equal; [apply IH1|apply IH2].
Qed.

(** X11.  placementMap holds, on the key of a cell, the last value written
    there: the last placement of the list that covers the cell and whose
    slot number is found in slotsToRender, with the first slot of that
    number; the cell has no key when there is no such placement. *)
Theorem placementMap_last_write ps slotsToRender c r :
  placementMap ps slotsToRender !! (c, r) = last (cellEntries slotsToRender ps c r).
Proof.
  unfold placementMap. rewrite placementMap_from, lookup_empty.
  by destruct (last _).
Qed.

(** X12.  An entry of placementMap is sound: the placement it names belongs
    to the list and covers the cell, and the slot it names belongs to
    slotsToRender and carries the slot number of the placement. *)
Theorem placementMap_sound ps slotsToRender c r p s :
  placementMap ps slotsToRender !! (c, r) = Some (p, s) ->
  p ∈ ps /\ covers p c r = true /\ s ∈ slotsToRender /\ slot s = pl_slot p.
Proof.
  unfold placementMap. rewrite placementMap_from, lookup_empty.
  destruct (last _) as [v|] eqn:E; [|done]. intros ?; simplify_eq.
  apply last_Some_elem_of, list_elem_of_omap in E as (q & Hq & Hentry).
  destruct (covers q c r) eqn:Hcov; [|done].
  destruct (findSlot slotsToRender (pl_slot q)) as [s'|] eqn:Hfind; [|done].
  simpl in Hentry. simplify_eq.
  destruct (findSlot_first _ _ _ Hfind) as [Hin Hnum]. done.
Qed.

(** X13.  Every entry of emptyCellSlots sits on a cell of the
    rows x GRID_COLS grid that has no key in the map, and carries a slot of
    slotsToRender that has no name. *)
Theorem emptyCellSlots_sound (slotsToRender : list Slot) (rows : Z)
    (pm : gmap (Z * Z) (Placement * Slot)) e :
  e ∈ emptyCellSlots slotsToRender rows pm ->
  pm !! (ec_col e, ec_row e) = None /\
  0 <= ec_col e < GRID_COLS /\ 0 <= ec_row e < rows /\
  ec_slot e ∈ slotsToRender /\ name (ec_slot e) = None.
Proof.
  rewrite emptyCellSlots_zip.
  intros ([c r] & s & -> & [Hfree Hcell]%list_elem_of_filter
            & [Hname Hs]%list_elem_of_filter)%elem_of_zip_with.
  apply elem_of_gridCells in Hcell. simpl. tauto.
Qed.

(** X14.  emptyCellSlots uses the empty slots in their order, each at most
    once, and uses no cell twice: the slots of its entries are the first
    entries-many empty slots of slotsToRender, and the cells of its entries
    are pairwise distinct.  When the slot numbers of slotsToRender are
    distinct, so are the slot numbers of the entries (the React keys
    [empty-<slot>]). *)
Theorem emptyCellSlots_no_reuse (slotsToRender : list Slot) (rows : Z)
    (pm : gmap (Z * Z) (Placement * Slot)) :
  let cells := emptyCellSlots slotsToRender rows pm in
  ec_slot <$> cells =
    take (length cells) (filter (fun s => name s = None) slotsToRender) /\
  NoDup ((fun e => (ec_col e, ec_row e)) <$> cells) /\
  (NoDup (slot <$> slotsToRender) ->
   NoDup ((fun e => slot (ec_slot e)) <$> cells)).
Proof.
  intros cells. unfold cells. rewrite emptyCellSlots_zip.
  set (free := filter (fun cell : Z * Z => pm !! cell = None)
                 (gridCells rows GRID_COLS)).
  set (empties := filter (fun s => name s = None) slotsToRender).
  destruct (zip_cells_slots free empties) as [Hslots Hcells].
  assert (ec_slot <$> zip_with (fun cell s => mkEmptyCell cell.1 cell.2 s)
            free empties =
          take (length (zip_with (fun cell s => mkEmptyCell cell.1 cell.2 s)
            free empties)) empties) as Hprefix.
  { rewrite Hslots, length_zip_with.
    destruct (decide (length free <= length empties)%nat).
    - by rewrite Nat.min_l by done.
    - rewrite Nat.min_r by lia. by rewrite !take_ge by lia. }
  split; [done|]. split.
  - rewrite Hcells. eapply sublist_NoDup; [|apply sublist_take].
    apply NoDup_filter, NoDup_gridCells.
  - intros Hnd.
    change (fun e => slot (ec_slot e)) with (slot ∘ ec_slot).
    rewrite list_fmap_compose, Hslots.
    eapply sublist_NoDup; [exact Hnd|]. apply fmap_sublist.
    etransitivity; [apply sublist_take|apply sublist_filter].
Qed.

(** X15.  There is no drop target when the grid has no row, and none when
    every slot holds an item. *)
Theorem emptyCellSlots_none (slotsToRender : list Slot) (rows : Z)
    (pm : gmap (Z * Z) (Placement * Slot)) :
  rows <= 0 \/ Forall (fun s => name s <> None) slotsToRender ->
  emptyCellSlots slotsToRender rows pm = [].
Proof.
  rewrite emptyCellSlots_zip. intros [Hrows|Hfull].
  - unfold gridCells. by rewrite (seqZ_nil 0 rows).
  - assert (filter (fun s => name s = None) slotsToRender = []) as ->;
      [|apply zip_with_nil_r].
    induction Hfull as [|s l Hs _ IH]; [done|].
    by rewrite filter_cons_False.
Qed.

(** ** Pixel boxes *)

Lemma rects_apart p q :
  1 <= pl_w p -> 1 <= pl_h p -> 1 <= pl_w q -> 1 <= pl_h q ->
  ~ overlap p q ->
  pl_col p + pl_w p <= pl_col q \/ pl_col q + pl_w q <= pl_col p \/
  pl_row p + pl_h p <= pl_row q \/ pl_row q + pl_h q <= pl_row p.
Proof.
  intros Hwp Hhp Hwq Hhq Hno.
  destruct (decide (pl_col p + pl_w p <= pl_col q)); [tauto|].
  destruct (decide (pl_col q + pl_w q <= pl_col p)); [tauto|].
  destruct (decide (pl_row p + pl_h p <= pl_row q)); [tauto|].
  destruct (decide (pl_row q + pl_h q <= pl_row p)); [tauto|].
  exfalso. apply Hno.
  exists (Z.max (pl_col p) (pl_col q)), (Z.max (pl_row p) (pl_row q)).
  unfold covers. rewrite !inRect_true. lia.
Qed.

Lemma itemBox_gap p q :
  pl_col p + pl_w p <= pl_col q \/ pl_col q + pl_w q <= pl_col p \/
  pl_row p + pl_h p <= pl_row q \/ pl_row q + pl_h q <= pl_row p ->
  posLeft (itemBox p) + slotWidth (itemBox p) + CELL_GAP <= posLeft (itemBox q) \/
  posLeft (itemBox q) + slotWidth (itemBox q) + CELL_GAP <= posLeft (itemBox p) \/
  posTop (itemBox p) + slotHeight (itemBox p) + CELL_GAP <= posTop (itemBox q) \/
  posTop (itemBox q) + slotHeight (itemBox q) + CELL_GAP <= posTop (itemBox p).
Proof. unfold itemBox, cellStep, CELL_SIZE, CELL_GAP. simpl. lia. Qed.

Lemma gap_no_meet a b :
  posLeft a + slotWidth a + CELL_GAP <= posLeft b \/
  posLeft b + slotWidth b + CELL_GAP <= posLeft a \/
  posTop a + slotHeight a + CELL_GAP <= posTop b \/
  posTop b + slotHeight b + CELL_GAP <= posTop a ->
  ~ boxesMeet a b.
Proof. unfold CELL_GAP. intros Hgap (x & y & Hx). lia. Qed.

(** X16.  Two items with footprints of at least 1x1 whose cell rectangles
    do not overlap are drawn in boxes that lie at least CELL_GAP pixels
    apart, horizontally or vertically; the boxes share no pixel. *)
Theorem itemBoxes_apart p q :
  1 <= pl_w p -> 1 <= pl_h p -> 1 <= pl_w q -> 1 <= pl_h q ->
  ~ overlap p q ->
  (posLeft (itemBox p) + slotWidth (itemBox p) + CELL_GAP <= posLeft (itemBox q) \/
   posLeft (itemBox q) + slotWidth (itemBox q) + CELL_GAP <= posLeft (itemBox p) \/
   posTop (itemBox p) + slotHeight (itemBox p) + CELL_GAP <= posTop (itemBox q) \/
   posTop (itemBox q) + slotHeight (itemBox q) + CELL_GAP <= posTop (itemBox p)) /\
  ~ boxesMeet (itemBox p) (itemBox q).
Proof.
  intros Hwp Hhp Hwq Hhq Hno.
  pose proof (itemBox_gap p q (rects_apart p q Hwp Hhp Hwq Hhq Hno)) as Hgap.
  split; [done|]. by apply gap_no_meet.
Qed.

Section Rendering.
Context `{ItemFootprint}.

(** X17.  In the component (GRID_COLS columns) the box of an item that was
    searched for and has a footprint of at least 1x1 lies inside the
    container of gridW x gridH(rows) pixels. *)
Theorem searched_box_inside fuel slots res i s p :
  packItems fuel slots GRID_COLS = Returns res ->
  slots !! i = Some s -> isFixed s = false ->
  placements res !! i = Some p ->
  1 <= pl_w p -> 1 <= pl_h p ->
  0 <= posLeft (itemBox p) /\
  posLeft (itemBox p) + slotWidth (itemBox p) <= gridW /\
  0 <= posTop (itemBox p) /\
  posTop (itemBox p) + slotHeight (itemBox p) <= gridH (rows res).
Proof.
  intros (Hrows & _ & Hall)%packItems_Returns Hs Hfree Hp Hw Hh.
  destruct (Hall i s Hs) as (p' & Hp' & Hplaced). simplify_eq.
  destruct (placedAs_search _ _ _ _ Hplaced Hfree) as (Hr & Hc & _).
  pose proof (fold_max_elem (placements res) 0 p
                (list_elem_of_lookup_2 _ _ _ Hp)) as Hmax.
  fold (maxRowOf (placements res)) in Hmax.
  rewrite Hrows. unfold itemBox, gridW, gridH, cellStep, GRID_COLS, CELL_SIZE,
    CELL_GAP in *. simpl. lia.
Qed.

(** X18.  In the component no drop target is drawn over an item: the box of
    an entry of emptyCellSlots shares no pixel with the box of a placement
    that has a footprint of at least 1x1. *)
Theorem drop_target_clear_of_items fuel slots res e p :
  packItems fuel slots GRID_COLS = Returns res ->
  e ∈ emptyCellSlots slots (rows res) (placementMap (placements res) slots) ->
  p ∈ placements res -> 1 <= pl_w p -> 1 <= pl_h p ->
  ~ boxesMeet (emptyCellBox e) (itemBox p).
Proof.
  intros (_ & Hlen & Hall)%packItems_Returns He Hp Hw Hh.
  rewrite emptyCellSlots_zip in He.
  apply elem_of_zip_with in He
    as ([c r] & s & -> & [Hfree _]%list_elem_of_filter & _).
  assert (covers p c r = false) as Hcov.
  { destruct (covers p c r) eqn:E; [|done]. exfalso.
    apply eq_None_not_Some in Hfree. apply Hfree, placementMap_lookup.
    exists p. split; [done|]. split; [|done].
    apply list_elem_of_lookup in Hp as [i Hp].
    destruct (lookup_lt_is_Some_2 slots i) as [si Hsi].
    { apply lookup_lt_Some in Hp. lia. }
    destruct (Hall i si Hsi) as (p' & Hp' & Hslot & _). simplify_eq.
    rewrite Hslot. apply findSlot_is_Some. by eapply list_elem_of_lookup_2. }
  apply (gap_no_meet (itemBox (mkPlacement 0 c r 1 1)) (itemBox p)).
  apply itemBox_gap, rects_apart; simpl; [lia|lia|done|done|].
  intros (c' & r' & [Hc Hr]%inRect_true & Hp'). simpl in *.
  replace c' with c in Hp' by lia. replace r' with r in Hp' by lia.
  by rewrite Hcov in Hp'.
Qed.

End Rendering.

(** ** More on the search and on the cell map *)

Lemma findFree_from_too_wide fuel cols w h r0 occ :
  0 <= cols -> cols < w -> 0 <= r0 ->
  findFree_from fuel cols w h r0 occ = OutOfFuel.
Proof.
  intros Hcols Hwide. revert r0 occ.
  induction fuel as [|fuel IH]; intros r0 occ Hr0; [done|]. simpl.
  destruct (ensureRows_total cols (r0 + h - 1) occ Hcols) as [g1 Hens].
  rewrite (bind_Returns_intro _ _ _ _ _ Hens).
  destruct (scanRow_total cols r0 w h g1 Hcols Hr0) as (o & g2 & Hscan).
  rewrite (bind_Returns_intro _ _ _ _ _ Hscan).
  apply scanRow_Returns in Hscan as [_ Ho].
  destruct o as [[c r]|]; [lia|]. apply IH. lia.
Qed.

(** X19.  In a grid of at least 0 columns, the search for a footprint wider
    than the grid never stops: whatever the bound on the rows it may try,
    it is cut off by the bound, neither returning nor throwing. *)
Theorem findFree_too_wide_hangs fuel cols w h occ :
  0 <= cols -> cols < w -> findFree fuel cols w h occ = OutOfFuel.
Proof. intros Hcols Hwide. by apply findFree_from_too_wide. Qed.

Lemma placementMap_entry ps slotsToRender c r p s :
  placementMap ps slotsToRender !! (c, r) = Some (p, s) ->
  p ∈ ps /\ covers p c r = true /\ findSlot slotsToRender (pl_slot p) = Some s.
Proof.
  unfold placementMap. rewrite placementMap_from, lookup_empty.
  destruct (last _) as [v|] eqn:E; [|done]. intros ?; simplify_eq.
  apply last_Some_elem_of, list_elem_of_omap in E as (q & Hq & Hentry).
  destruct (covers q c r) eqn:Hcov; [|done].
  destruct (findSlot slotsToRender (pl_slot q)) as [s'|] eqn:Hfind; [|done].
  simpl in Hentry. by simplify_eq.
Qed.

Section CellMap.
Context `{ItemFootprint}.

Lemma placementMap_packed fuel slots cols res c r :
  packItems fuel slots cols = Returns res ->
  is_Some (placementMap (placements res) slots !! (c, r)) <->
  exists p, p ∈ placements res /\ covers p c r = true.
Proof.
  intros (_ & Hlen & Hall)%packItems_Returns.
  rewrite placementMap_lookup. split.
  - intros (p & Hp & _ & Hcov). eauto.
  - intros (p & Hp & Hcov). exists p. split; [done|]. split; [|done].
    apply list_elem_of_lookup in Hp as [i Hp].
    destruct (lookup_lt_is_Some_2 slots i) as [s Hs].
    { apply lookup_lt_Some in Hp. lia. }
    destruct (Hall i s Hs) as (p' & Hp' & Hslot & _). simplify_eq.
    rewrite Hslot. apply findSlot_is_Some. by eapply list_elem_of_lookup_2.
Qed.

(** X20.  After a run of packItems on slotsToRender, placementMap has a key
    for a cell exactly when some placement of the run covers the cell. *)
Theorem placementMap_covers_run fuel slots cols res c r :
  packItems fuel slots cols = Returns res ->
  placementMap (placements res) slots !! (c, r) = None <->
  forall p, p ∈ placements res -> covers p c r = false.
Proof.
  intros Hrun. rewrite eq_None_not_Some.
  rewrite (placementMap_packed _ _ _ _ c r Hrun). split.
  - intros Hno p Hp. destruct (covers p c r) eqn:E; [|done].
    exfalso. apply Hno. eauto.
  - intros Hall (p & Hp & Hcov). by rewrite (Hall p Hp) in Hcov.
Qed.

(** X21.  From a cell back to its item: when no slot has a fixed position
    and the slot numbers are distinct, placementMap gives, on every cell
    covered by the placement of a slot, that placement and that slot. *)
Theorem placementMap_round_trip fuel slots cols res i s p c r :
  packItems fuel slots cols = Returns res ->
  Forall (fun s => isFixed s = false) slots ->
  NoDup (slot <$> slots) ->
  slots !! i = Some s -> placements res !! i = Some p ->
  covers p c r = true ->
  placementMap (placements res) slots !! (c, r) = Some (p, s).
Proof.
  intros Hrun Hfree Hnd Hs Hp Hcov.
  destruct (proj2 (placementMap_packed _ _ _ _ c r Hrun)) as [[q s'] Hlookup].
  { exists p. split; [by eapply list_elem_of_lookup_2|done]. }
  rewrite Hlookup. f_equal.
  destruct (placementMap_entry _ _ _ _ _ _ Hlookup) as (Hq & Hqcov & Hfind).
  pose proof (packItems_Returns _ _ _ _ Hrun) as (_ & Hlen & Hall).
  apply list_elem_of_lookup in Hq as [j Hq].
  assert (forall a b sa sb pa pb, (a < b)%nat ->
    slots !! a = Some sa -> slots !! b = Some sb ->
    placements res !! a = Some pa -> placements res !! b = Some pb ->
    covers pa c r = true -> covers pb c r = true -> False) as Hclash.
  { intros a b sa sb pa pb Hab Hsa Hsb Hpa Hpb Hca Hcb.
    destruct (Hall b sb Hsb) as (pb' & Hpb' & Hplaced). simplify_eq.
    rewrite Forall_lookup in Hfree.
    apply (firstFree_no_overlap cols (take b (placements res)) pa pb).
    - apply (placedAs_search _ _ sb); [done|]. by eapply Hfree.
    - apply elem_of_take. eauto.
    - by exists c, r. }
  destruct (lookup_lt_is_Some_2 slots j) as [sj Hsj].
  { apply lookup_lt_Some in Hq. lia. }
  assert (i = j) as <-.
  { destruct (Nat.lt_trichotomy i j) as [Hlt|[Heq|Hgt]]; [|done|].
    - exfalso. by apply (Hclash i j s sj p q).
    - exfalso. by apply (Hclash j i sj s q p). }
  simplify_eq.
  destruct (Hall i s Hs) as (p' & Hp' & Hslot & _). simplify_eq.
  rewrite Hslot, (findSlot_NoDup _ _ _ Hnd Hs) in Hfind. by simplify_eq.
Qed.

End CellMap.

(** * The claims on the scenarios *)

#[local] Existing Instance scenarioFootprint.

(** The search never lands on the banner fixed at (5, 2). *)
Lemma packItems_searched_no_overlap_witness :
  packItems 1 bannerFirst 10 =
    Returns (mkPackResult
      [mkPlacement 1 5 2 1 2; mkPlacement 2 0 0 1 1;
       mkPlacement 3 1 0 2 2; mkPlacement 4 3 0 1 1] 4) /\
  ~ overlap (mkPlacement 1 5 2 1 2) (mkPlacement 3 1 0 2 2).
Proof.
  assert (packItems 1 bannerFirst 10 =
    Returns (mkPackResult
      [mkPlacement 1 5 2 1 2; mkPlacement 2 0 0 1 1;
       mkPlacement 3 1 0 2 2; mkPlacement 4 3 0 1 1] 4)) as Hrun by reflexivity.
  split; [exact Hrun|].
  exact (packItems_searched_no_overlap _ _ _ _ 0 2 (item 3 "rifle") _ _ Hrun
           ltac:(lia) ltac:(reflexivity) ltac:(reflexivity)
           ltac:(reflexivity) ltac:(reflexivity)).
Defined.

(** A fixed position on a cell already given to an earlier slot: the two
    placements share the cell (0, 0). *)
Lemma packItems_fixed_overlap :
  Forall (fun s => getItemWidth s <= 10) stacked /\
  packItems 1 stacked 10 =
    Returns (mkPackResult [mkPlacement 1 0 0 1 1; mkPlacement 2 0 0 1 1] 4) /\
  overlap (mkPlacement 1 0 0 1 1) (mkPlacement 2 0 0 1 1).
Proof.
  split; [by repeat constructor|]. split; [reflexivity|].
  by exists 0, 0.
Qed.

(** Two columns: the 2x2 rifle fills rows 0 and 1, so the search for the
    next two 1x1 slots has to go down to row 2. *)
Lemma packItems_first_fit_witness :
  0 < 2 /\
  Forall (fun s => isFixed s = false -> getItemWidth s <= 2)
    [item 1 "rifle"; item 2 "water"; item 3 "bread"] /\
  Forall fixedRowNonneg [item 1 "rifle"; item 2 "water"; item 3 "bread"] /\
  exists fuel0,
    (forall fuel, (fuel0 <= fuel)%nat ->
       packItems fuel [item 1 "rifle"; item 2 "water"; item 3 "bread"] 2 =
       Returns (mkPackResult
         [mkPlacement 1 0 0 2 2; mkPlacement 2 0 2 1 1; mkPlacement 3 1 2 1 1] 4)) /\
    forall r c, 0 <= r -> 0 <= c <= 2 - 1 ->
      freeRect [mkPlacement 1 0 0 2 2; mkPlacement 2 0 2 1 1] c r 1 1 ->
      lexLe 2 1 r c.
Proof.
  assert (Forall (fun s => isFixed s = false -> getItemWidth s <= 2)
            [item 1 "rifle"; item 2 "water"; item 3 "bread"]) as Hw
    by (repeat constructor; intros _; simpl; lia).
  assert (Forall fixedRowNonneg [item 1 "rifle"; item 2 "water"; item 3 "bread"])
    as Hfixed by (repeat constructor; intros x y Hx Hy; simpl in *; simplify_eq).
  split; [lia|]. split; [exact Hw|]. split; [exact Hfixed|].
  destruct (proj1 packItems_first_fit
              [item 1 "rifle"; item 2 "water"; item 3 "bread"] 2
              ltac:(lia) Hw Hfixed) as (fuel0 & res & Hruns & Hfirst).
  assert (packItems (Nat.max fuel0 3)
            [item 1 "rifle"; item 2 "water"; item 3 "bread"] 2 =
    Returns (mkPackResult
      [mkPlacement 1 0 0 2 2; mkPlacement 2 0 2 1 1; mkPlacement 3 1 2 1 1] 4))
    as Hrun by (apply (packItems_mono 3); [reflexivity|lia]).
  rewrite (Hruns (Nat.max fuel0 3)) in Hrun by lia.
  injection Hrun as Hres.
  exists fuel0. split.
  - intros fuel Hle. rewrite <- Hres. by apply Hruns.
  - destruct (Hfirst 2%nat (item 3 "bread") ltac:(reflexivity) ltac:(reflexivity))
      as (p & Hp & Hprops).
    rewrite Hres in Hp, Hprops. simpl in Hp. injection Hp as <-.
    destruct Hprops as (_ & _ & _ & _ & _ & Hleast). exact Hleast.
Defined.

(** The slot fixed at (0, 0) is recorded there although (0, 0) is taken. *)
Lemma packItems_fixed_position_witness :
  packItems 1 stacked 10 =
    Returns (mkPackResult [mkPlacement 1 0 0 1 1; mkPlacement 2 0 0 1 1] 4) /\
  [mkPlacement 1 0 0 1 1; mkPlacement 2 0 0 1 1] !! 1%nat =
    Some (mkPlacement 2 0 0 1 1) /\
  forall occ, placeSlot 1 10 (itemAt 2 "bread" 0 0) occ =
              placeSlot 0 10 (itemAt 2 "bread" 0 0) occ.
Proof.
  assert (packItems 1 stacked 10 =
    Returns (mkPackResult [mkPlacement 1 0 0 1 1; mkPlacement 2 0 0 1 1] 4))
    as Hrun by reflexivity.
  split; [exact Hrun|].
  exact (packItems_fixed_position _ _ _ _ 1 (itemAt 2 "bread" 0 0) 0 0 Hrun
           ltac:(reflexivity) ltac:(reflexivity) ltac:(reflexivity)).
Defined.

Lemma packItems_returns_one_per_slot_witness :
  0 < 10 /\
  Forall (fun s => getItemWidth s <= 10) bannerFirst /\
  Forall fixedRowNonneg bannerFirst /\
  exists fuel0 res,
    (forall fuel, (fuel0 <= fuel)%nat -> packItems fuel bannerFirst 10 = Returns res) /\
    length (placements res) = length bannerFirst /\
    pl_slot <$> placements res = slot <$> bannerFirst.
Proof.
  assert (Forall (fun s => getItemWidth s <= 10) bannerFirst) as Hw
    by (by repeat constructor).
  assert (Forall fixedRowNonneg bannerFirst) as Hfixed
    by (repeat constructor; intros x y Hx Hy; simpl in *; simplify_eq; lia).
  split; [lia|]. split; [exact Hw|]. split; [exact Hfixed|].
  apply (packItems_returns_one_per_slot bannerFirst 10); [lia|exact Hw|exact Hfixed].
Defined.

(** A fixed position on row -1: [occupied[-1]] is [undefined] and the write
    into it throws, whatever the bound on the search. *)
Lemma packItems_negative_row_throws :
  0 < 10 /\
  Forall (fun s => getItemWidth s <= 10) [itemAt 1 "water" 0 (-1)] /\
  forall fuel, packItems fuel [itemAt 1 "water" 0 (-1)] 10 = Throws TypeError.
Proof.
  split; [lia|]. split; [by repeat constructor|]. intros fuel. reflexivity.
Qed.

Lemma packItems_rows_witness :
  packItems 1 [itemAt 1 "banner" 5 6; item 2 "bread"] 10 =
    Returns (mkPackResult [mkPlacement 1 5 6 1 2; mkPlacement 2 0 0 1 1] 8) /\
  8 = Z.max 4 (maxExtent [mkPlacement 1 5 6 1 2; mkPlacement 2 0 0 1 1]) /\
  4 <= 8.
Proof.
  assert (packItems 1 [itemAt 1 "banner" 5 6; item 2 "bread"] 10 =
    Returns (mkPackResult [mkPlacement 1 5 6 1 2; mkPlacement 2 0 0 1 1] 8))
    as Hrun by reflexivity.
  split; [exact Hrun|].
  exact (packItems_rows _ _ _ _ Hrun).
Defined.

Lemma packItems_unit_row_major_witness :
  0 < 3 /\
  Forall (fun s => getItemWidth s = 1 /\ getItemHeight s = 1 /\ isFixed s = false)
    [item 1 "water"; item 2 "bread"; emptySlot 3; item 4 "phone"; item 5 "water"] /\
  exists fuel0 res,
    (forall fuel, (fuel0 <= fuel)%nat ->
       packItems fuel
         [item 1 "water"; item 2 "bread"; emptySlot 3; item 4 "phone"; item 5 "water"]
         3 = Returns res) /\
    placements res =
      [mkPlacement 1 0 0 1 1; mkPlacement 2 1 0 1 1; mkPlacement 3 2 0 1 1;
       mkPlacement 4 0 1 1 1; mkPlacement 5 1 1 1 1].
Proof.
  assert (Forall (fun s => getItemWidth s = 1 /\ getItemHeight s = 1 /\
                           isFixed s = false)
    [item 1 "water"; item 2 "bread"; emptySlot 3; item 4 "phone"; item 5 "water"])
    as Hunit by (by repeat constructor).
  split; [lia|]. split; [exact Hunit|].
  exact (packItems_unit_row_major _ 3 ltac:(lia) Hunit).
Defined.

(** The 10x3 crate fills rows 0-2; on row 3 the pistol and the two empty
    slots take columns 0-3 and the 6 cells of columns 4-9 stay uncovered:
    the 2 empty slots go to (4, 3) and (5, 3), the other 4 cells get none. *)
Lemma emptyCellSlots_row_major_witness :
  packItems 4 almostFull GRID_COLS =
    Returns (mkPackResult
      [mkPlacement 1 0 0 10 3; mkPlacement 2 0 3 2 1;
       mkPlacement 3 2 3 1 1; mkPlacement 4 3 3 1 1] 4) /\
  let ps := [mkPlacement 1 0 0 10 3; mkPlacement 2 0 3 2 1;
             mkPlacement 3 2 3 1 1; mkPlacement 4 3 3 1 1] in
  let uncovered :=
    filter (fun cell : Z * Z => coveredBy ps cell.1 cell.2 = false)
      (gridCells 4 GRID_COLS) in
  let emptySlots := filter (fun s => name s = None) almostFull in
  length uncovered = 6%nat /\ length emptySlots = 2%nat /\
  emptyCellSlots almostFull 4 (placementMap ps almostFull) =
    [mkEmptyCell 4 3 (emptySlot 3); mkEmptyCell 5 3 (emptySlot 4)] /\
  length (emptyCellSlots almostFull 4 (placementMap ps almostFull)) = 2%nat.
Proof.
  assert (packItems 4 almostFull GRID_COLS =
    Returns (mkPackResult
      [mkPlacement 1 0 0 10 3; mkPlacement 2 0 3 2 1;
       mkPlacement 3 2 3 1 1; mkPlacement 4 3 3 1 1] 4)) as Hrun by reflexivity.
  split; [exact Hrun|]. intros ps uncovered emptySlots.
  destruct (emptyCellSlots_row_major _ _ _ Hrun) as [Hcells Hlen].
  split; [reflexivity|]. split; [reflexivity|]. split.
  - etransitivity; [exact Hcells|reflexivity].
  - etransitivity; [exact Hlen|reflexivity].
Defined.

(** Two lists that differ in the item names only, run with different bounds. *)
Lemma packItems_deterministic_witness :
  Forall2 sameInput [item 1 "water"; item 2 "rifle"] [item 1 "bread"; item 2 "rifle"] /\
  packItems 1 [item 1 "water"; item 2 "rifle"] 10 =
    Returns (mkPackResult [mkPlacement 1 0 0 1 1; mkPlacement 2 1 0 2 2] 4) /\
  packItems 7 [item 1 "bread"; item 2 "rifle"] 10 =
    Returns (mkPackResult [mkPlacement 1 0 0 1 1; mkPlacement 2 1 0 2 2] 4) /\
  mkPackResult [mkPlacement 1 0 0 1 1; mkPlacement 2 1 0 2 2] 4 =
  mkPackResult [mkPlacement 1 0 0 1 1; mkPlacement 2 1 0 2 2] 4.
Proof.
  assert (Forall2 sameInput [item 1 "water"; item 2 "rifle"]
            [item 1 "bread"; item 2 "rifle"]) as Hsame
    by (by repeat constructor).
  assert (packItems 1 [item 1 "water"; item 2 "rifle"] 10 =
    Returns (mkPackResult [mkPlacement 1 0 0 1 1; mkPlacement 2 1 0 2 2] 4))
    as Hrun1 by reflexivity.
  assert (packItems 7 [item 1 "bread"; item 2 "rifle"] 10 =
    Returns (mkPackResult [mkPlacement 1 0 0 1 1; mkPlacement 2 1 0 2 2] 4))
    as Hrun2 by reflexivity.
  split; [exact Hsame|]. split; [exact Hrun1|]. split; [exact Hrun2|].
  exact (packItems_deterministic _ _ _ _ _ _ _ Hsame Hrun1 Hrun2).
Defined.

(** The searched bread lies inside the 10 columns; the banner fixed at
    column 12 is recorded at column 12, which lies outside. *)
Lemma packItems_within_columns_witness :
  packItems 1 [itemAt 1 "banner" 12 2; item 2 "bread"] 10 =
    Returns (mkPackResult [mkPlacement 1 12 2 1 2; mkPlacement 2 0 0 1 1] 4) /\
  (0 <= 0 /\ 0 + 1 <= 10) /\
  pl_col (mkPlacement 1 12 2 1 2) = 12 /\
  (0 <= 12 /\ 12 + 1 <= 10 <-> 0 <= 12 /\ 12 + 1 <= 10).
Proof.
  assert (packItems 1 [itemAt 1 "banner" 12 2; item 2 "bread"] 10 =
    Returns (mkPackResult [mkPlacement 1 12 2 1 2; mkPlacement 2 0 0 1 1] 4))
    as Hrun by reflexivity.
  split; [exact Hrun|]. split.
  - exact (proj1 (packItems_within_columns _ _ _ _ 1 (item 2 "bread")
                    (mkPlacement 2 0 0 1 1) Hrun
                    ltac:(reflexivity) ltac:(reflexivity)) eq_refl).
  - destruct (proj2 (packItems_within_columns _ _ _ _ 0 (itemAt 1 "banner" 12 2)
                       (mkPlacement 1 12 2 1 2) Hrun
                       ltac:(reflexivity) ltac:(reflexivity))
                12 2 eq_refl eq_refl) as (Hcol & _ & Hiff).
    split; [exact Hcol|exact Hiff].
Defined.

(** A fixed column 20 in a grid of 10 columns is recorded as it is. *)
Lemma packItems_fixed_outside_columns :
  packItems 1 [itemAt 1 "water" 20 0] 10 =
    Returns (mkPackResult [mkPlacement 1 20 0 1 1] 4) /\
  ~ (0 <= pl_col (mkPlacement 1 20 0 1 1) /\
     pl_col (mkPlacement 1 20 0 1 1) + pl_w (mkPlacement 1 20 0 1 1) <= 10).
Proof. split; [reflexivity|]. simpl. lia. Qed.


(** * The further properties on the scenarios *)

Lemma ensureRows_cases_witness :
  (0 < Z.of_nat (length [filledFalse 3]) /\
   ensureRows (-5) 0 [filledFalse 3] = Returns (tt, [filledFalse 3])) /\
  (Z.of_nat (length ([] : Grid)) <= 1 /\ 0 <= 3 /\
   exists occ', ensureRows 3 1 [] = Returns (tt, occ') /\
                Z.of_nat (length occ') = 1 + 1) /\
  (Z.of_nat (length ([] : Grid)) <= 0 /\ -1 < 0 /\
   ensureRows (-1) 0 [] = Throws RangeError).
Proof.
  destruct (ensureRows_cases (-5) 0 [filledFalse 3]) as (Henough & _ & _).
  destruct (ensureRows_cases 3 1 []) as (_ & Hpush & _).
  destruct (ensureRows_cases (-1) 0 []) as (_ & _ & Hthrow).
  split; [|split].
  - split; [simpl; lia|]. apply Henough. simpl. lia.
  - split; [simpl; lia|]. split; [lia|].
    destruct Hpush as (occ' & Hrun & _ & Hlen & _); [simpl; lia|lia|].
    by exists occ'.
  - split; [simpl; lia|]. split; [lia|]. apply Hthrow; simpl; lia.
Defined.

Lemma markOccupied_marks_rectangle_witness :
  0 <= 10 /\ 0 <= 0 /\
  exists occ',
    markOccupied 10 2 0 2 2 [] = Returns (tt, occ') /\
    forall c r, occAt occ' c r = occAt [] c r || inRect 2 0 2 2 c r.
Proof.
  split; [lia|]. split; [lia|].
  exact (markOccupied_marks_rectangle 10 2 0 2 2 [] ltac:(lia) ltac:(lia)).
Defined.

Lemma markOccupied_negative_row_witness :
  -1 < 0 /\ 0 < 1 /\ 0 < 2 /\
  markOccupied 10 5 (-1) 1 2 [filledFalse 10] = Throws TypeError.
Proof.
  split; [lia|]. split; [lia|]. split; [lia|].
  exact (markOccupied_negative_row 10 5 (-1) 1 2 [filledFalse 10]
           ltac:(lia) ltac:(lia) ltac:(lia)).
Defined.

Lemma findFree_bounded_witness :
  0 <= 10 /\ 2 <= 10 /\ (length ([] : Grid) < 1)%nat /\
  exists c r occ',
    findFree 1 10 2 2 [] = Returns ((c, r), occ') /\
    0 <= r <= Z.of_nat (length ([] : Grid)) /\ 0 <= c <= 10 - 2 /\
    rectClear [] c r 2 2 /\
    forall c' r', occAt occ' c' r' = occAt [] c' r'.
Proof.
  split; [lia|]. split; [lia|]. split; [simpl; lia|].
  exact (findFree_bounded 1 10 2 2 [] ltac:(lia) ltac:(lia) ltac:(simpl; lia)).
Defined.

(** After the run on [stacked] the cell (0, 0) is occupied and covered. *)
Lemma packLoop_final_occupancy_witness :
  exists ps occ',
    packLoop 1 10 stacked [] [] = Returns (ps, occ') /\
    (occAt occ' 0 0 = true <-> exists p, p ∈ ps /\ covers p 0 0 = true).
Proof.
  destruct (packLoop 1 10 stacked [] []) as [[ps occ']|e|] eqn:Hrun;
    [|vm_compute in Hrun; discriminate|vm_compute in Hrun; discriminate].
  exists ps, occ'. split; [reflexivity|].
  exact (packLoop_final_occupancy 1 10 stacked ps occ' 0 0 Hrun).
Defined.

Lemma packItems_cells_within_rows_witness :
  packItems 1 bannerFirst 10 =
    Returns (mkPackResult
      [mkPlacement 1 5 2 1 2; mkPlacement 2 0 0 1 1;
       mkPlacement 3 1 0 2 2; mkPlacement 4 3 0 1 1] 4) /\
  covers (mkPlacement 1 5 2 1 2) 5 3 = true /\
  0 <= 3 < 4.
Proof.
  assert (packItems 1 bannerFirst 10 =
    Returns (mkPackResult
      [mkPlacement 1 5 2 1 2; mkPlacement 2 0 0 1 1;
       mkPlacement 3 1 0 2 2; mkPlacement 4 3 0 1 1] 4)) as Hrun by reflexivity.
  split; [exact Hrun|]. split; [reflexivity|].
  exact (packItems_cells_within_rows _ _ _ _ (mkPlacement 1 5 2 1 2) 5 3 Hrun
           (list_elem_of_here _ _) ltac:(reflexivity)).
Defined.

Lemma packItems_returns_only_if_witness :
  packItems 1 bannerFirst 10 =
    Returns (mkPackResult
      [mkPlacement 1 5 2 1 2; mkPlacement 2 0 0 1 1;
       mkPlacement 3 1 0 2 2; mkPlacement 4 3 0 1 1] 4) /\
  getItemWidth (item 3 "rifle") <= 10 /\ 0 <= 2.
Proof.
  assert (packItems 1 bannerFirst 10 =
    Returns (mkPackResult
      [mkPlacement 1 5 2 1 2; mkPlacement 2 0 0 1 1;
       mkPlacement 3 1 0 2 2; mkPlacement 4 3 0 1 1] 4)) as Hrun by reflexivity.
  split; [exact Hrun|]. split.
  - exact (proj1 (packItems_returns_only_if _ _ _ _ 2%nat (item 3 "rifle") Hrun
                    ltac:(reflexivity)) ltac:(reflexivity)).
  - exact (proj2 (packItems_returns_only_if _ _ _ _ 0%nat (itemAt 1 "banner" 5 2)
                    Hrun ltac:(reflexivity))
             5 2 ltac:(reflexivity) ltac:(reflexivity)
             ltac:(simpl; lia) ltac:(simpl; lia)).
Defined.

Lemma packItems_search_row_bound_witness :
  packItems 1 fourItems 10 =
    Returns (mkPackResult
      [mkPlacement 1 0 0 1 1; mkPlacement 2 1 0 1 1;
       mkPlacement 3 2 0 2 2; mkPlacement 4 4 0 1 1] 4) /\
  0 <= maxRowOf [mkPlacement 1 0 0 1 1; mkPlacement 2 1 0 1 1;
                 mkPlacement 3 2 0 2 2].
Proof.
  assert (packItems 1 fourItems 10 =
    Returns (mkPackResult
      [mkPlacement 1 0 0 1 1; mkPlacement 2 1 0 1 1;
       mkPlacement 3 2 0 2 2; mkPlacement 4 4 0 1 1] 4)) as Hrun by reflexivity.
  split; [exact Hrun|].
  exact (packItems_search_row_bound _ _ _ _ 3 (item 4 "phone")
           (mkPlacement 4 4 0 1 1) Hrun
           ltac:(reflexivity) ltac:(reflexivity) ltac:(reflexivity)).
Defined.

Lemma packItems_prefix_stable_witness :
  packItems 1 ([item 1 "water"; item 2 "bread"] ++ [item 3 "rifle"; item 4 "phone"])
    10 =
    Returns (mkPackResult
      [mkPlacement 1 0 0 1 1; mkPlacement 2 1 0 1 1;
       mkPlacement 3 2 0 2 2; mkPlacement 4 4 0 1 1] 4) /\
  exists res1,
    packItems 1 [item 1 "water"; item 2 "bread"] 10 = Returns res1 /\
    placements res1 = [mkPlacement 1 0 0 1 1; mkPlacement 2 1 0 1 1] /\
    rows res1 <= 4.
Proof.
  assert (packItems 1
    ([item 1 "water"; item 2 "bread"] ++ [item 3 "rifle"; item 4 "phone"]) 10 =
    Returns (mkPackResult
      [mkPlacement 1 0 0 1 1; mkPlacement 2 1 0 1 1;
       mkPlacement 3 2 0 2 2; mkPlacement 4 4 0 1 1] 4)) as Hrun by reflexivity.
  split; [exact Hrun|].
  exact (packItems_prefix_stable _ _ _ _ _ Hrun).
Defined.

Lemma renderedItems_own_slot_witness :
  packItems 1 fourItems 10 =
    Returns (mkPackResult
      [mkPlacement 1 0 0 1 1; mkPlacement 2 1 0 1 1;
       mkPlacement 3 2 0 2 2; mkPlacement 4 4 0 1 1] 4) /\
  NoDup (slot <$> fourItems) /\
  exists p s',
    [mkPlacement 1 0 0 1 1; mkPlacement 2 1 0 1 1;
     mkPlacement 3 2 0 2 2; mkPlacement 4 4 0 1 1] !! 2%nat = Some p /\
    renderedItems fourItems
      [mkPlacement 1 0 0 1 1; mkPlacement 2 1 0 1 1;
       mkPlacement 3 2 0 2 2; mkPlacement 4 4 0 1 1] !! 2%nat =
      Some (Some (s', itemBox p)) /\
    s' = item 3 "rifle".
Proof.
  assert (packItems 1 fourItems 10 =
    Returns (mkPackResult
      [mkPlacement 1 0 0 1 1; mkPlacement 2 1 0 1 1;
       mkPlacement 3 2 0 2 2; mkPlacement 4 4 0 1 1] 4)) as Hrun by reflexivity.
  assert (NoDup (slot <$> fourItems)) as Hnd
    by (apply (bool_decide_unpack _); by vm_compute).
  split; [exact Hrun|]. split; [exact Hnd|].
  destruct (renderedItems_own_slot _ _ _ _ 2 (item 3 "rifle") Hrun
              ltac:(reflexivity)) as (p & s' & Hp & Hrender & _ & _ & Hown).
  exists p, s'. split; [exact Hp|]. split; [exact Hrender|]. exact (Hown Hnd).
Defined.

(** On the run on [stacked] the cell (0, 0) was written twice; the map
    keeps the second placement. *)
Lemma placementMap_sound_witness :
  placementMap [mkPlacement 1 0 0 1 1; mkPlacement 2 0 0 1 1] stacked !! (0, 0) =
    Some (mkPlacement 2 0 0 1 1, itemAt 2 "bread" 0 0) /\
  mkPlacement 2 0 0 1 1 ∈ [mkPlacement 1 0 0 1 1; mkPlacement 2 0 0 1 1] /\
  covers (mkPlacement 2 0 0 1 1) 0 0 = true /\
  itemAt 2 "bread" 0 0 ∈ stacked /\
  slot (itemAt 2 "bread" 0 0) = pl_slot (mkPlacement 2 0 0 1 1).
Proof.
  assert (placementMap [mkPlacement 1 0 0 1 1; mkPlacement 2 0 0 1 1] stacked
            !! (0, 0) = Some (mkPlacement 2 0 0 1 1, itemAt 2 "bread" 0 0))
    as Hlookup by reflexivity.
  split; [exact Hlookup|].
  exact (placementMap_sound _ _ _ _ _ _ Hlookup).
Defined.

Lemma emptyCellSlots_sound_witness :
  let pm := placementMap
    [mkPlacement 1 0 0 10 3; mkPlacement 2 0 3 2 1;
     mkPlacement 3 2 3 1 1; mkPlacement 4 3 3 1 1] almostFull in
  mkEmptyCell 5 3 (emptySlot 4) ∈ emptyCellSlots almostFull 4 pm /\
  pm !! (5, 3) = None /\ 0 <= 5 < GRID_COLS /\ 0 <= 3 < 4 /\
  emptySlot 4 ∈ almostFull /\ name (emptySlot 4) = None.
Proof.
  intros pm.
  assert (mkEmptyCell 5 3 (emptySlot 4) ∈ emptyCellSlots almostFull 4 pm) as He.
  { replace (emptyCellSlots almostFull 4 pm)
      with [mkEmptyCell 4 3 (emptySlot 3); mkEmptyCell 5 3 (emptySlot 4)]
      by reflexivity.
    apply list_elem_of_further, list_elem_of_here. }
  split; [exact He|].
  exact (emptyCellSlots_sound almostFull 4 pm _ He).
Defined.

Lemma emptyCellSlots_no_reuse_witness :
  let pm := placementMap
    [mkPlacement 1 0 0 10 3; mkPlacement 2 0 3 2 1;
     mkPlacement 3 2 3 1 1; mkPlacement 4 3 3 1 1] almostFull in
  NoDup (slot <$> almostFull) /\
  NoDup ((fun e => slot (ec_slot e)) <$> emptyCellSlots almostFull 4 pm).
Proof.
  intros pm.
  assert (NoDup (slot <$> almostFull)) as Hnd
    by (apply (bool_decide_unpack _); by vm_compute).
  split; [exact Hnd|].
  exact (proj2 (proj2 (emptyCellSlots_no_reuse almostFull 4 pm)) Hnd).
Defined.

Lemma emptyCellSlots_none_witness :
  (0 <= 0 \/ Forall (fun s => name s <> None) almostFull) /\
  emptyCellSlots almostFull 0 ∅ = [].
Proof.
  split; [left; lia|].
  exact (emptyCellSlots_none almostFull 0 ∅ (or_introl (Z.le_refl 0))).
Defined.

Lemma itemBoxes_apart_witness :
  ~ overlap (mkPlacement 1 0 0 1 1) (mkPlacement 3 2 0 2 2) /\
  ~ boxesMeet (itemBox (mkPlacement 1 0 0 1 1)) (itemBox (mkPlacement 3 2 0 2 2)).
Proof.
  assert (~ overlap (mkPlacement 1 0 0 1 1) (mkPlacement 3 2 0 2 2)) as Hno.
  { intros (c & r & [Hc _]%inRect_true & [Hc' _]%inRect_true). simpl in *. lia. }
  split; [exact Hno|].
  exact (proj2 (itemBoxes_apart (mkPlacement 1 0 0 1 1) (mkPlacement 3 2 0 2 2)
                  ltac:(simpl; lia) ltac:(simpl; lia) ltac:(simpl; lia)
                  ltac:(simpl; lia) Hno)).
Defined.

Lemma searched_box_inside_witness :
  packItems 1 fourItems GRID_COLS =
    Returns (mkPackResult
      [mkPlacement 1 0 0 1 1; mkPlacement 2 1 0 1 1;
       mkPlacement 3 2 0 2 2; mkPlacement 4 4 0 1 1] 4) /\
  0 <= posLeft (itemBox (mkPlacement 3 2 0 2 2)) /\
  posLeft (itemBox (mkPlacement 3 2 0 2 2)) +
    slotWidth (itemBox (mkPlacement 3 2 0 2 2)) <= gridW /\
  0 <= posTop (itemBox (mkPlacement 3 2 0 2 2)) /\
  posTop (itemBox (mkPlacement 3 2 0 2 2)) +
    slotHeight (itemBox (mkPlacement 3 2 0 2 2)) <= gridH 4.
Proof.
  assert (packItems 1 fourItems GRID_COLS =
    Returns (mkPackResult
      [mkPlacement 1 0 0 1 1; mkPlacement 2 1 0 1 1;
       mkPlacement 3 2 0 2 2; mkPlacement 4 4 0 1 1] 4)) as Hrun by reflexivity.
  split; [exact Hrun|].
  exact (searched_box_inside _ _ _ 2 (item 3 "rifle") (mkPlacement 3 2 0 2 2) Hrun
           ltac:(reflexivity) ltac:(reflexivity) ltac:(reflexivity)
           ltac:(simpl; lia) ltac:(simpl; lia)).
Defined.

Lemma drop_target_clear_of_items_witness :
  packItems 4 almostFull GRID_COLS =
    Returns (mkPackResult
      [mkPlacement 1 0 0 10 3; mkPlacement 2 0 3 2 1;
       mkPlacement 3 2 3 1 1; mkPlacement 4 3 3 1 1] 4) /\
  ~ boxesMeet (emptyCellBox (mkEmptyCell 4 3 (emptySlot 3)))
              (itemBox (mkPlacement 4 3 3 1 1)).
Proof.
  assert (packItems 4 almostFull GRID_COLS =
    Returns (mkPackResult
      [mkPlacement 1 0 0 10 3; mkPlacement 2 0 3 2 1;
       mkPlacement 3 2 3 1 1; mkPlacement 4 3 3 1 1] 4)) as Hrun by reflexivity.
  split; [exact Hrun|].
  refine (drop_target_clear_of_items _ _ _ (mkEmptyCell 4 3 (emptySlot 3))
            (mkPlacement 4 3 3 1 1) Hrun _ _ ltac:(simpl; lia) ltac:(simpl; lia)).
  - simpl.
    replace (emptyCellSlots almostFull 4 _)
      with [mkEmptyCell 4 3 (emptySlot 3); mkEmptyCell 5 3 (emptySlot 4)]
      by reflexivity.
    apply list_elem_of_here.
  - simpl. do 3 apply list_elem_of_further. apply list_elem_of_here.
Defined.

Lemma findFree_too_wide_hangs_witness :
  0 <= 10 /\ 10 < 11 /\ findFree 1000 10 11 1 [] = OutOfFuel.
Proof.
  split; [lia|]. split; [lia|].
  exact (findFree_too_wide_hangs 1000 10 11 1 [] ltac:(lia) ltac:(lia)).
Defined.

Lemma placementMap_covers_run_witness :
  packItems 1 fourItems 10 =
    Returns (mkPackResult
      [mkPlacement 1 0 0 1 1; mkPlacement 2 1 0 1 1;
       mkPlacement 3 2 0 2 2; mkPlacement 4 4 0 1 1] 4) /\
  (placementMap
     [mkPlacement 1 0 0 1 1; mkPlacement 2 1 0 1 1;
      mkPlacement 3 2 0 2 2; mkPlacement 4 4 0 1 1] fourItems !! (5, 0) = None <->
   forall p,
     p ∈ [mkPlacement 1 0 0 1 1; mkPlacement 2 1 0 1 1;
          mkPlacement 3 2 0 2 2; mkPlacement 4 4 0 1 1] ->
     covers p 5 0 = false).
Proof.
  assert (packItems 1 fourItems 10 =
    Returns (mkPackResult
      [mkPlacement 1 0 0 1 1; mkPlacement 2 1 0 1 1;
       mkPlacement 3 2 0 2 2; mkPlacement 4 4 0 1 1] 4)) as Hrun by reflexivity.
  split; [exact Hrun|].
  exact (placementMap_covers_run _ _ _ _ 5 0 Hrun).
Defined.

(** The cell (3, 1) belongs to the 2x2 rifle placed at (2, 0). *)
Lemma placementMap_round_trip_witness :
  packItems 1 fourItems 10 =
    Returns (mkPackResult
      [mkPlacement 1 0 0 1 1; mkPlacement 2 1 0 1 1;
       mkPlacement 3 2 0 2 2; mkPlacement 4 4 0 1 1] 4) /\
  Forall (fun s => isFixed s = false) fourItems /\
  NoDup (slot <$> fourItems) /\
  placementMap
    [mkPlacement 1 0 0 1 1; mkPlacement 2 1 0 1 1;
     mkPlacement 3 2 0 2 2; mkPlacement 4 4 0 1 1] fourItems !! (3, 1) =
    Some (mkPlacement 3 2 0 2 2, item 3 "rifle").
Proof.
  assert (packItems 1 fourItems 10 =
    Returns (mkPackResult
      [mkPlacement 1 0 0 1 1; mkPlacement 2 1 0 1 1;
       mkPlacement 3 2 0 2 2; mkPlacement 4 4 0 1 1] 4)) as Hrun by reflexivity.
  assert (Forall (fun s => isFixed s = false) fourItems) as Hfree
    by (by repeat constructor).
  assert (NoDup (slot <$> fourItems)) as Hnd
    by (apply (bool_decide_unpack _); by vm_compute).
  split; [exact Hrun|]. split; [exact Hfree|]. split; [exact Hnd|].
  exact (placementMap_round_trip _ _ _ _ 2 (item 3 "rifle") (mkPlacement 3 2 0 2 2)
           3 1 Hrun Hfree Hnd ltac:(reflexivity) ltac:(reflexivity)
           ltac:(reflexivity)).
Defined.
